(** * IELTS writing helper: the essay editor of [src/app/page.tsx]

    A shallow embedding of the client-side editor: the essay text with its
    undo/redo history ([updateEssay], [handleUndo], [handleRedo]), the edit
    applier ([applyFix]), the analysis request ([handleAnalyze]), the
    annotated rendering ([renderAnnotatedEssay]) and the per-suggestion
    "applied" test ([isApplied]).

    JavaScript strings are sequences of code units; they are modelled by
    [string], one [ascii] per code unit (code units below 256).  Every
    string operation used by the page ([indexOf], [includes], [replace],
    [split], [trim]) works code unit by code unit, so the model follows the
    ECMAScript algorithms step by step. *)

From Stdlib Require Import Bool Arith ZArith QArith_base Lia List Ascii String.
From Equations Require Import Equations.
Import ListNotations.

Local Open Scope nat_scope.
Local Open Scope string_scope.
Local Open Scope list_scope.

(** ** ECMAScript string operations *)

Module Js.

(** [s.substring(from)]: the code units of [s] from position [from] on. *)
Fixpoint substringFrom (s : string) (from : nat) : string :=
  match from, s with
  | 0, _ => s
  | S _, EmptyString => EmptyString
  | S n, String _ s' => substringFrom s' n
  end.

(** [s.substring(from, to)] for [from <= to]. *)
Definition substring (s : string) (from to : nat) : string :=
  String.substring from (to - from) s.

(** Is [searchValue] the sequence of code units of [s] at position 0? *)
Fixpoint startsWith (s searchValue : string) : bool :=
  match searchValue, s with
  | EmptyString, _ => true
  | String _ _, EmptyString => false
  | String a p', String b s' => Ascii.eqb a b && startsWith s' p'
  end.

(** The abstract operation StringIndexOf(string, searchValue, fromIndex):
    the smallest position [i >= fromIndex] at which [searchValue] occurs in
    [s]; [None] is ECMAScript's NOT-FOUND (-1 for [indexOf]). *)
Fixpoint StringIndexOf (s searchValue : string) (fromIndex : nat) : option nat :=
  match fromIndex with
  | 0 =>
      if startsWith s searchValue then Some 0
      else match s with
           | EmptyString => None
           | String _ s' => option_map S (StringIndexOf s' searchValue 0)
           end
  | S from' =>
      match s with
      | EmptyString => None
      | String _ s' => option_map S (StringIndexOf s' searchValue from')
      end
  end.

(** [s.includes(searchString)] *)
Definition includes (s searchString : string) : bool :=
  match StringIndexOf s searchString 0 with
  | Some _ => true
  | None => false
  end.

Definition isDigit (c : ascii) : bool :=
  let n := nat_of_ascii c in Nat.leb 48 n && Nat.leb n 57.

(** The abstract operation GetSubstitution for a string pattern: there are
    no captures and no named groups, so [$n], [$nn] and [$<] are copied as
    they are (a digit at a time gives the same text), while [$$], [$&],
    [$`] and [$'] are expanded. *)
Fixpoint GetSubstitution (matched str : string) (position : nat)
    (templateRemainder : string) : string :=
  match templateRemainder with
  | EmptyString => EmptyString
  | String c rest =>
      if negb (Ascii.eqb c "$") then String c (GetSubstitution matched str position rest)
      else
        match rest with
        | EmptyString => String c EmptyString
        | String d rest' =>
            if Ascii.eqb d "$" then
              String "$" (GetSubstitution matched str position rest')
            else if Ascii.eqb d "`" then
              substring str 0 position ++ GetSubstitution matched str position rest'
            else if Ascii.eqb d "&" then
              matched ++ GetSubstitution matched str position rest'
            else if Ascii.eqb d "'" then
              let tailPos := position + String.length matched in
              substringFrom str (Nat.min tailPos (String.length str))
                ++ GetSubstitution matched str position rest'
            else if isDigit d then
              String c (String d (GetSubstitution matched str position rest'))
            else if Ascii.eqb d "<" then
              String c (String d (GetSubstitution matched str position rest'))
            else String c (GetSubstitution matched str position rest)
        end
  end%string.

(** [s.replace(searchValue, replaceValue)] with two strings: only the first
    occurrence is replaced. *)
Definition replace (s searchValue replaceValue : string) : string :=
  match StringIndexOf s searchValue 0 with
  | None => s
  | Some pos =>
      let preceding := substring s 0 pos in
      let following := substringFrom s (pos + String.length searchValue) in
      let replacement := GetSubstitution searchValue s pos replaceValue in
      (preceding ++ replacement ++ following)%string
  end.

(** The code units of [s], each as a string of length one. *)
Fixpoint codeUnits (s : string) : list string :=
  match s with
  | EmptyString => []
  | String c s' => String c EmptyString :: codeUnits s'
  end.

(** The loop of [s.split(separator)] for a non-empty separator
    [String c r]: [i] is the position after the last separator found, the
    next separator is looked for from [i] on. *)
Lemma startsWith_length (s searchValue : string) :
  startsWith s searchValue = true -> String.length searchValue <= String.length s.
Proof.
  revert s.
  induction searchValue as [|a p IHp]; intros [|c t]; simpl; try lia; try discriminate.
  intros E. apply andb_prop in E as [_ E]. apply IHp in E. lia.
Qed.

Lemma StringIndexOf_range (s searchValue : string) (fromIndex j : nat) :
  StringIndexOf s searchValue fromIndex = Some j ->
  fromIndex <= j /\ j + String.length searchValue <= String.length s.
Proof.
  revert fromIndex j.
  induction s as [|b s IH]; intros [|i] j; cbn [StringIndexOf].
  - destruct (startsWith EmptyString searchValue) eqn:E; [|discriminate].
    intros [= <-]. apply startsWith_length in E. lia.
  - discriminate.
  - destruct (startsWith (String b s) searchValue) eqn:E.
    + intros [= <-]. apply startsWith_length in E. lia.
    + destruct (StringIndexOf s searchValue 0) as [k|] eqn:F; [|discriminate].
      intros [= <-]. apply IH in F. simpl. lia.
  - destruct (StringIndexOf s searchValue i) as [k|] eqn:F; [|discriminate].
    intros [= <-]. apply IH in F. simpl. lia.
Qed.

Definition inspect {A : Type} (x : A) : {y : A | x = y} := exist _ x eq_refl.

Equations? splitLoop (s : string) (c : ascii) (r : string) (i : nat) : list string
    by wf (String.length s - i) lt :=
  splitLoop s c r i with inspect (StringIndexOf s (String c r) i) => {
    | exist _ None _ := [substringFrom s i];
    | exist _ (Some j) Hj := substring s i j :: splitLoop s c r (j + String.length (String c r)) }.
Proof.
  apply StringIndexOf_range in Hj. simpl in *. lia.
Qed.

(** [s.split(separator)] with a string separator and no limit. *)
Definition split (s separator : string) : list string :=
  match separator with
  | EmptyString => codeUnits s
  | String c r =>
      match s with
      | EmptyString => [s]
      | String _ _ => splitLoop s c r 0
      end
  end.

(** [parts.join(separator)] *)
Fixpoint join (separator : string) (parts : list string) : string :=
  match parts with
  | [] => EmptyString
  | [part] => part
  | part :: parts' => (part ++ separator ++ join separator parts')%string
  end.

(** White space and line terminators among the code units below 256:
    TAB, LF, VT, FF, CR, SPACE and NBSP. *)
Definition isWhiteSpace (c : ascii) : bool :=
  let n := nat_of_ascii c in
  (Nat.leb 9 n && Nat.leb n 13) || Nat.eqb n 32 || Nat.eqb n 160.

Fixpoint trimStart (s : string) : string :=
  match s with
  | EmptyString => EmptyString
  | String c s' => if isWhiteSpace c then trimStart s' else s
  end.

Fixpoint trimEnd (s : string) : string :=
  match s with
  | EmptyString => EmptyString
  | String c s' =>
      match trimEnd s' with
      | EmptyString => if isWhiteSpace c then EmptyString else String c EmptyString
      | t => String c t
      end
  end.

(** [s.trim()] *)
Definition trim (s : string) : string := trimEnd (trimStart s).

(** Truthiness of a value of type [string | null | undefined]: [None]
    stands for [null] and [undefined]; the empty string is falsy. *)
Definition truthy (v : option string) : bool :=
  match v with
  | None => false
  | Some EmptyString => false
  | Some (String _ _) => true
  end.

(** [a.slice(0, end)] on an array: a negative [end] counts from the end of
    the array, and the result is clamped to the array. *)
Definition slice0 {A : Type} (a : list A) (end_ : Z) : list A :=
  let len := Z.of_nat (List.length a) in
  let final := if (end_ <? 0)%Z then Z.max (len + end_) 0 else Z.min end_ len in
  firstn (Z.to_nat final) a.

(** [a[i]]: [None] is [undefined], the result of reading outside the
    array. *)
Definition get {A : Type} (a : list A) (i : Z) : option A :=
  if (i <? 0)%Z then None else nth_error a (Z.to_nat i).

End Js.

(** ** Data model: the interfaces of [page.tsx] *)

Module Correction.
Record t := mk {
  original : string;
  replacement : string;
  type : string;
  explanation : string }.
End Correction.

Inductive Priority := high | medium | low.

Module PrioritizedSuggestion.
Record t := mk {
  priority : Priority;
  issue : string;
  suggestion : string;
  example_fix : option string;
  apply_to_text : option string;
  replacement_text : option string;
  category : string }.
End PrioritizedSuggestion.

Module VocabularyEnrichment.
Record t := mk {
  word : string;
  phonetic : string;
  type : string;
  definition : string;
  example_sentence : string;
  context_in_essay : string;
  target_text : option string;
  replacement_text : option string }.
End VocabularyEnrichment.

Module Tip.
Record t := mk {
  tip : string;
  example_implementation : option string;
  apply_to_text : option string;
  replacement_text : option string }.
End Tip.

Record FeedbackDetail := {
  summary : string;
  tips : list Tip.t }.

Inductive Criterion :=
  | task_achievement
  | coherence_cohesion
  | lexical_resource
  | grammatical_range_accuracy.

Record FeedbackData := {
  band_score : Q;
  prioritized_suggestions : list PrioritizedSuggestion.t;
  enrichment : option (list VocabularyEnrichment.t);
  feedback : Criterion -> FeedbackDetail;
  corrections : list Correction.t;
  general_comment : string }.

Inductive TaskType := Task1 | Task2.
Inductive ViewMode := edit | review.

(** ** The state of the [Home] component

    One field per [useState] cell the editor logic reads or writes (the
    tooltip position is display only and left out). *)

Record State := {
  essay : string;
  history : list string;
  historyIndex : Z;
  taskType : TaskType;
  loading : bool;
  result : option FeedbackData;
  error : string;
  selectedCriterion : option Criterion;
  viewMode : ViewMode;
  lastModifiedText : option string }.

Definition setEssay (v : string) (s : State) : State :=
  {| essay := v; history := history s; historyIndex := historyIndex s;
     taskType := taskType s; loading := loading s; result := result s;
     error := error s; selectedCriterion := selectedCriterion s;
     viewMode := viewMode s; lastModifiedText := lastModifiedText s |}.

Definition setHistory (v : list string) (s : State) : State :=
  {| essay := essay s; history := v; historyIndex := historyIndex s;
     taskType := taskType s; loading := loading s; result := result s;
     error := error s; selectedCriterion := selectedCriterion s;
     viewMode := viewMode s; lastModifiedText := lastModifiedText s |}.

Definition setHistoryIndex (v : Z) (s : State) : State :=
  {| essay := essay s; history := history s; historyIndex := v;
     taskType := taskType s; loading := loading s; result := result s;
     error := error s; selectedCriterion := selectedCriterion s;
     viewMode := viewMode s; lastModifiedText := lastModifiedText s |}.

Definition setLoading (v : bool) (s : State) : State :=
  {| essay := essay s; history := history s; historyIndex := historyIndex s;
     taskType := taskType s; loading := v; result := result s;
     error := error s; selectedCriterion := selectedCriterion s;
     viewMode := viewMode s; lastModifiedText := lastModifiedText s |}.

Definition setResult (v : option FeedbackData) (s : State) : State :=
  {| essay := essay s; history := history s; historyIndex := historyIndex s;
     taskType := taskType s; loading := loading s; result := v;
     error := error s; selectedCriterion := selectedCriterion s;
     viewMode := viewMode s; lastModifiedText := lastModifiedText s |}.

Definition setError (v : string) (s : State) : State :=
  {| essay := essay s; history := history s; historyIndex := historyIndex s;
     taskType := taskType s; loading := loading s; result := result s;
     error := v; selectedCriterion := selectedCriterion s;
     viewMode := viewMode s; lastModifiedText := lastModifiedText s |}.

Definition setSelectedCriterion (v : option Criterion) (s : State) : State :=
  {| essay := essay s; history := history s; historyIndex := historyIndex s;
     taskType := taskType s; loading := loading s; result := result s;
     error := error s; selectedCriterion := v;
     viewMode := viewMode s; lastModifiedText := lastModifiedText s |}.

Definition setViewMode (v : ViewMode) (s : State) : State :=
  {| essay := essay s; history := history s; historyIndex := historyIndex s;
     taskType := taskType s; loading := loading s; result := result s;
     error := error s; selectedCriterion := selectedCriterion s;
     viewMode := v; lastModifiedText := lastModifiedText s |}.

Definition setLastModifiedText (v : option string) (s : State) : State :=
  {| essay := essay s; history := history s; historyIndex := historyIndex s;
     taskType := taskType s; loading := loading s; result := result s;
     error := error s; selectedCriterion := selectedCriterion s;
     viewMode := viewMode s; lastModifiedText := v |}.

(** The [useState] initial values. *)
Definition initialState : State :=
  {| essay := ""; history := []; historyIndex := (-1)%Z;
     taskType := Task2; loading := false; result := None;
     error := ""; selectedCriterion := None;
     viewMode := edit; lastModifiedText := None |}.

(** The "Initialize history" effect, run once after the first render. *)
Definition initializeHistory (s : State) : State :=
  if Nat.eqb (List.length (history s)) 0 && Js.truthy (Some (essay s)) then
    setHistoryIndex 0%Z (setHistory [essay s] s)
  else s.

(** The state the session starts in. *)
Definition mounted : State := initializeHistory initialState.

(** ** Document store: [updateEssay], [handleUndo], [handleRedo] *)

Definition updateEssay (newEssay : string) (sourceReplacement : option string)
    (s : State) : State :=
  let s1 := setEssay newEssay s in
  let newHistory := Js.slice0 (history s) (historyIndex s + 1) ++ [newEssay] in
  let s2 := setHistory newHistory s1 in
  let s3 := setHistoryIndex (Z.of_nat (List.length newHistory) - 1) s2 in
  if Js.truthy sourceReplacement then setLastModifiedText sourceReplacement s3
  else s3.

(** [handleUndo] and [handleRedo] read [history[i]]; [None] is returned when
    that read is outside the array, where JavaScript would store
    [undefined] as the essay.  [run_total] shows it never happens in a
    session. *)
Definition handleUndo (s : State) : option State :=
  if (0 <? historyIndex s)%Z then
    match Js.get (history s) (historyIndex s - 1) with
    | Some snapshot => Some (setEssay snapshot (setHistoryIndex (historyIndex s - 1) s))
    | None => None
    end
  else Some s.

Definition handleRedo (s : State) : option State :=
  if (historyIndex s <? Z.of_nat (List.length (history s)) - 1)%Z then
    match Js.get (history s) (historyIndex s + 1) with
    | Some snapshot => Some (setEssay snapshot (setHistoryIndex (historyIndex s + 1) s))
    | None => None
    end
  else Some s.

(** ** Edit applier: [applyFix]

    [shiftKey] is [event?.shiftKey]. *)
Definition applyFix (original replacement : string) (shiftKey : bool)
    (s : State) : State :=
  let newEssay := Js.replace (essay s) original replacement in
  let s1 := if shiftKey then updateEssay newEssay None s
            else updateEssay newEssay (Some replacement) s in
  let s2 := setViewMode review s1 in
  match selectedCriterion s with
  | Some _ => setSelectedCriterion None s2
  | None => s2
  end.

(** ** The user's document events and sessions *)

Inductive Event :=
  | SetText (newText : string)
  | ApplyFix (original replacement : string) (shiftKey : bool)
  | Undo
  | Redo.

Definition react (e : Event) (s : State) : option State :=
  match e with
  | SetText newText => Some (updateEssay newText None s)
  | ApplyFix original replacement shiftKey =>
      Some (applyFix original replacement shiftKey s)
  | Undo => handleUndo s
  | Redo => handleRedo s
  end.

Fixpoint run (es : list Event) (s : State) : option State :=
  match es with
  | [] => Some s
  | e :: es' =>
      match react e s with
      | Some s' => run es' s'
      | None => None
      end
  end.

(** Does the event commit a snapshot through [updateEssay]? *)
Definition commits (e : Event) : bool :=
  match e with
  | SetText _ | ApplyFix _ _ _ => true
  | Undo | Redo => false
  end.

(** ** Analysis request: [handleAnalyze]

    The handler runs up to its [await], the request is answered some events
    later, and the rest of the handler runs on the state of that moment. *)

Inductive FetchOutcome :=
  | NetworkFailure                 (* [fetch] rejects *)
  | HttpFailure                    (* [response.ok] is false *)
  | MalformedBody                  (* [response.json()] rejects *)
  | Success (data : FeedbackData).

Definition failed (o : FetchOutcome) : bool :=
  match o with
  | Success _ => false
  | _ => true
  end.

(** [!essay.trim()] is false: a request is sent. *)
Definition requestSent (s : State) : bool := Js.truthy (Some (Js.trim (essay s))).

(** Up to the [await fetch(...)]. *)
Definition handleAnalyze_begin (s : State) : State :=
  if negb (requestSent s) then setError "Please enter your essay." s
  else setResult None (setLoading true (setError "" s)).

(** From the answer on: the rest of [try], [catch] and [finally]. *)
Definition handleAnalyze_settle (o : FetchOutcome) (s : State) : State :=
  let s1 :=
    match o with
    | Success data => setViewMode review (setResult (Some data) s)
    | _ => setError "Something went wrong. Please try again." s
    end in
  setLoading false s1.

(** A whole analysis, with the document events [during] that the user
    triggers while the request is in flight. *)
Definition handleAnalyze (o : FetchOutcome) (during : list Event) (s : State)
    : option State :=
  if negb (requestSent s) then Some (handleAnalyze_begin s)
  else
    match run during (handleAnalyze_begin s) with
    | Some s' => Some (handleAnalyze_settle o s')
    | None => None
    end.

(** ** Annotator: [renderAnnotatedEssay] *)

(** The elements of [annotatedText]: strings, the red correction spans
    (key [corr-index-i], child [correction.original]) and the green
    last-change spans (key [mod-i], child [lastModifiedText]). *)
Inductive Segment :=
  | Text (text : string)
  | CorrectionSpan (index i : nat) (correction : Correction.t)
  | ModifiedSpan (i : nat) (highlight : string).

Definition segmentText (segment : Segment) : string :=
  match segment with
  | Text text => text
  | CorrectionSpan _ _ correction => Correction.original correction
  | ModifiedSpan _ highlight => highlight
  end.

(** [parts.forEach((part, i) => { push(part); if (i < parts.length - 1)
    push(span i) })], from index [i] on; [len] is [parts.length]. *)
Fixpoint pushParts (span : nat -> Segment) (parts : list string) (i len : nat)
    : list Segment :=
  match parts with
  | [] => []
  | part :: parts' =>
      Text part
      :: (if (Z.of_nat i <? Z.of_nat len - 1)%Z then [span i] else [])
      ++ pushParts span parts' (S i) len
  end.

(** The body of [result.corrections.forEach((correction, index) => ...)]. *)
Definition annotateCorrection (correction : Correction.t) (index : nat)
    (annotatedText : list Segment) : list Segment :=
  flat_map
    (fun segment =>
       match segment with
       | Text text =>
           let parts := Js.split text (Correction.original correction) in
           if Nat.ltb 1 (List.length parts) then
             pushParts (fun i => CorrectionSpan index i correction) parts 0
               (List.length parts)
           else [segment]
       | _ => [segment]
       end)
    annotatedText.

Fixpoint annotateCorrections (cs : list Correction.t) (index : nat)
    (annotatedText : list Segment) : list Segment :=
  match cs with
  | [] => annotatedText
  | correction :: cs' =>
      annotateCorrections cs' (S index)
        (annotateCorrection correction index annotatedText)
  end.

(** The second pass, for a truthy [lastModifiedText]. *)
Definition annotateModified (lastModified : string)
    (annotatedText : list Segment) : list Segment :=
  flat_map
    (fun segment =>
       match segment with
       | Text text =>
           if Js.includes text lastModified then
             let parts := Js.split text lastModified in
             pushParts (fun i => ModifiedSpan i lastModified) parts 0
               (List.length parts)
           else [segment]
       | _ => [segment]
       end)
    annotatedText.

(** What [renderAnnotatedEssay] returns: the bare essay when there is no
    result, the children of the [div] otherwise. *)
Inductive Rendered :=
  | Bare (text : string)
  | Annotated (children : list Segment).

Definition renderAnnotatedEssay (s : State) : Rendered :=
  match result s with
  | None => Bare (essay s)
  | Some r =>
      let annotatedText := annotateCorrections (corrections r) 0 [Text (essay s)] in
      match lastModifiedText s with
      | Some lastModified =>
          if Js.truthy (Some lastModified) then
            Annotated (annotateModified lastModified annotatedText)
          else Annotated annotatedText
      | None => Annotated annotatedText
      end
  end.

(** The runs of the rendering, in order, and their concatenation. *)
Definition runs (r : Rendered) : list Segment :=
  match r with
  | Bare text => [Text text]
  | Annotated children => children
  end.

Fixpoint concatText (segments : list Segment) : string :=
  match segments with
  | [] => EmptyString
  | segment :: rest => (segmentText segment ++ concatText rest)%string
  end.

(** ** Applicability: [isApplied], [canApply] and the apply controls *)

(** [target && !essay.includes(target)] as a truth value, for the
    [apply_to_text] or [target_text] of a suggestion. *)
Definition isApplied (essay : string) (target : option string) : bool :=
  match target with
  | Some t => Js.truthy target && negb (Js.includes essay t)
  | None => false
  end.

(** [!!(target && replacement)] *)
Definition canApply (target replacement : option string) : bool :=
  Js.truthy target && Js.truthy replacement.

(** The texts of the apply controls: "Apply this fix" (suggestion),
    "Apply this fix to essay" (tip), "Apply" (vocabulary badge) and
    "Applied". *)
Inductive ButtonLabel := ApplyThisFix | ApplyThisFixToEssay | Apply | Applied.

Record ApplyButton := {
  disabled : bool;
  label : ButtonLabel }.

(** The button of a prioritized suggestion:
    [target && replacement && <button disabled={!!isApplied}>...]; [None]
    when no button is rendered. *)
Definition applyButton (essay : string) (target replacement : option string)
    : option ApplyButton :=
  if Js.truthy target && Js.truthy replacement then
    Some {| disabled := isApplied essay target;
            label := if isApplied essay target then Applied else ApplyThisFix |}
  else None.

Definition suggestionButton (essay : string) (item : PrioritizedSuggestion.t) :=
  applyButton essay (PrioritizedSuggestion.apply_to_text item)
    (PrioritizedSuggestion.replacement_text item).

(** The button of a tip, in the modal of its criterion: the same guards,
    and its own text. *)
Definition tipButton (essay : string) (tip : Tip.t) : option ApplyButton :=
  if Js.truthy (Tip.apply_to_text tip) && Js.truthy (Tip.replacement_text tip) then
    Some {| disabled := isApplied essay (Tip.apply_to_text tip);
            label := if isApplied essay (Tip.apply_to_text tip) then Applied
                     else ApplyThisFixToEssay |}
  else None.

(** The three looks of a vocabulary card, from its [className]:
    [isApplied ? ... : canApply ? ... : ...]. *)
Inductive CardLook := AppliedCard | ActionableCard | InertCard.

Definition enrichmentCardLook (essay : string) (item : VocabularyEnrichment.t)
    : CardLook :=
  if isApplied essay (VocabularyEnrichment.target_text item) then AppliedCard
  else if canApply (VocabularyEnrichment.target_text item)
            (VocabularyEnrichment.replacement_text item) then ActionableCard
  else InertCard.

(** [disabled={!canApply || !!isApplied}] of the vocabulary card. *)
Definition enrichmentCardDisabled (essay : string) (item : VocabularyEnrichment.t)
    : bool :=
  negb (canApply (VocabularyEnrichment.target_text item)
          (VocabularyEnrichment.replacement_text item))
  || isApplied essay (VocabularyEnrichment.target_text item).

(** The badge inside the vocabulary card, rendered when [canApply]:
    "Applied" or "Apply"; [None] when it is not rendered. *)
Definition enrichmentBadge (essay : string) (item : VocabularyEnrichment.t)
    : option ButtonLabel :=
  if canApply (VocabularyEnrichment.target_text item)
       (VocabularyEnrichment.replacement_text item) then
    Some (if isApplied essay (VocabularyEnrichment.target_text item)
          then Applied else Apply)
  else None.

(** The click handler of the vocabulary card:
    [if (canApply && !isApplied) applyFix(target_text!, replacement_text!, e)]. *)
Definition enrichmentCardClick (item : VocabularyEnrichment.t) (shiftKey : bool)
    (s : State) : State :=
  match VocabularyEnrichment.target_text item,
        VocabularyEnrichment.replacement_text item with
  | Some target, Some replacement =>
      if canApply (Some target) (Some replacement)
         && negb (isApplied (essay s) (Some target))
      then applyFix target replacement shiftKey s
      else s
  | _, _ => s
  end.

(** ** The apply actions of the page

    [applyFix] is called from five places: the button of a prioritized
    suggestion, the button of a tip, the vocabulary card, the badge inside
    the card, and the correction span of the review.  A disabled button
    receives no click. *)

(** The click on the button of a prioritized suggestion:
    [applyFix(item.apply_to_text!, item.replacement_text!, e)]. *)
Definition suggestionButtonClick (item : PrioritizedSuggestion.t)
    (shiftKey : bool) (s : State) : State :=
  match suggestionButton (essay s) item,
        PrioritizedSuggestion.apply_to_text item,
        PrioritizedSuggestion.replacement_text item with
  | Some b, Some target, Some replacement =>
      if disabled b then s else applyFix target replacement shiftKey s
  | _, _, _ => s
  end.

(** The click on the button of a tip:
    [applyFix(tip.apply_to_text!, tip.replacement_text!, e)]. *)
Definition tipButtonClick (tip : Tip.t) (shiftKey : bool) (s : State) : State :=
  match tipButton (essay s) tip,
        Tip.apply_to_text tip, Tip.replacement_text tip with
  | Some b, Some target, Some replacement =>
      if disabled b then s else applyFix target replacement shiftKey s
  | _, _, _ => s
  end.

(** The click on the badge of a vocabulary card, rendered when [canApply]:
    [if (!isApplied) applyFix(item.target_text!, item.replacement_text!, e)]. *)
Definition enrichmentBadgeClick (item : VocabularyEnrichment.t)
    (shiftKey : bool) (s : State) : State :=
  match enrichmentBadge (essay s) item,
        VocabularyEnrichment.target_text item,
        VocabularyEnrichment.replacement_text item with
  | Some _, Some target, Some replacement =>
      if negb (isApplied (essay s) (Some target))
      then applyFix target replacement shiftKey s
      else s
  | _, _, _ => s
  end.

(** The click on the [n]-th run of the review, shown when [viewMode] is
    "review": only a correction span has a handler,
    [applyFix(correction.original, correction.replacement, e)]. *)
Definition highlightClick (n : nat) (shiftKey : bool) (s : State) : State :=
  match viewMode s, nth_error (runs (renderAnnotatedEssay s)) n with
  | review, Some (CorrectionSpan _ _ correction) =>
      applyFix (Correction.original correction)
        (Correction.replacement correction) shiftKey s
  | _, _ => s
  end.

(** The apply controls of a page, by their position: in
    [result.prioritized_suggestions], in the tips of the selected
    criterion, in [result.enrichment], and among the runs of the review. *)
Inductive ApplyControl :=
  | SuggestionApply (idx : nat)
  | TipApply (idx : nat)
  | CardApply (idx : nat)
  | BadgeApply (idx : nat)
  | HighlightApply (n : nat).

(** [result.enrichment[idx]], when the list is there. *)
Definition enrichmentItem (r : FeedbackData) (idx : nat)
    : option VocabularyEnrichment.t :=
  match enrichment r with
  | Some items => nth_error items idx
  | None => None
  end.

(** The tip [idx] of the open modal. *)
Definition tipItem (r : FeedbackData) (s : State) (idx : nat) : option Tip.t :=
  match selectedCriterion s with
  | Some criterion => nth_error (tips (feedback r criterion)) idx
  | None => None
  end.

(** The pair (target, replacement) a control stands for: the two texts of
    its item when both are there and non-empty, the original and the
    replacement of the correction for a span; [None] when the page shows
    no such control. *)
Definition pairOf (target replacement : option string) : option (string * string) :=
  match target, replacement with
  | Some t, Some r => if canApply target replacement then Some (t, r) else None
  | _, _ => None
  end.

Definition controlPair (c : ApplyControl) (s : State) : option (string * string) :=
  match result s with
  | None => None
  | Some r =>
      match c with
      | SuggestionApply idx =>
          match nth_error (prioritized_suggestions r) idx with
          | Some item => pairOf (PrioritizedSuggestion.apply_to_text item)
                           (PrioritizedSuggestion.replacement_text item)
          | None => None
          end
      | TipApply idx =>
          match tipItem r s idx with
          | Some tip => pairOf (Tip.apply_to_text tip) (Tip.replacement_text tip)
          | None => None
          end
      | CardApply idx | BadgeApply idx =>
          match enrichmentItem r idx with
          | Some item => pairOf (VocabularyEnrichment.target_text item)
                           (VocabularyEnrichment.replacement_text item)
          | None => None
          end
      | HighlightApply n =>
          match viewMode s, nth_error (runs (renderAnnotatedEssay s)) n with
          | review, Some (CorrectionSpan _ _ correction) =>
              Some (Correction.original correction,
                    Correction.replacement correction)
          | _, _ => None
          end
      end
  end.

(** The click on a control; a control the page does not show changes
    nothing. *)
Definition clickControl (c : ApplyControl) (shiftKey : bool) (s : State) : State :=
  match result s with
  | None => s
  | Some r =>
      match c with
      | SuggestionApply idx =>
          match nth_error (prioritized_suggestions r) idx with
          | Some item => suggestionButtonClick item shiftKey s
          | None => s
          end
      | TipApply idx =>
          match tipItem r s idx with
          | Some tip => tipButtonClick tip shiftKey s
          | None => s
          end
      | CardApply idx =>
          match enrichmentItem r idx with
          | Some item => enrichmentCardClick item shiftKey s
          | None => s
          end
      | BadgeApply idx =>
          match enrichmentItem r idx with
          | Some item => enrichmentBadgeClick item shiftKey s
          | None => s
          end
      | HighlightApply n => highlightClick n shiftKey s
      end
  end.

(** ** History controls: the undo and redo buttons, the keyboard *)

(** [disabled={historyIndex <= 0}] of the undo button. *)
Definition undoDisabled (s : State) : bool := (historyIndex s <=? 0)%Z.

(** [disabled={historyIndex >= history.length - 1}] of the redo button. *)
Definition redoDisabled (s : State) : bool :=
  (historyIndex s >=? Z.of_nat (List.length (history s)) - 1)%Z.

(** The fields of the [KeyboardEvent] that [handleKeyDown] reads. *)
Record KeyboardEvent := {
  ctrlKey : bool;
  metaKey : bool;
  key : string }.

(** [handleKeyDown]: the next state, and whether [preventDefault] was
    called.  Both tests read the same event, and the handlers the state of
    the same render. *)
Definition handleKeyDown (e : KeyboardEvent) (s : State) : option State * bool :=
  let undo := (ctrlKey e || metaKey e) && String.eqb (key e) "z" in
  let redo := (ctrlKey e || metaKey e) && String.eqb (key e) "y" in
  (if undo then handleUndo s else if redo then handleRedo s else Some s,
   undo || redo).

Fixpoint runKeys (es : list KeyboardEvent) (s : State) : option State :=
  match es with
  | [] => Some s
  | e :: es' =>
      match fst (handleKeyDown e s) with
      | Some s' => runKeys es' s'
      | None => None
      end
  end.

(** ** Word counter: [essay.split(/\s+/).filter(w => w.length > 0).length] *)

Lemma trimStart_length (s : string) :
  String.length (Js.trimStart s) <= String.length s.
Proof.
  induction s as [|c s IH]; simpl; [lia|].
  destruct (Js.isWhiteSpace c); simpl; lia.
Qed.

(** The loop of [RegExp.prototype[Symbol.split]] for the pattern [\s+]
    (white space and line terminators, as for [trim]).  The loop keeps two
    positions [p <= q]: [part] is the text between them and [rest] the text
    from [q] on.  When the pattern matches at [q], that is when [rest]
    starts with white space, the match ends after the whole run of white
    space: [part] is pushed and both positions move there.  Otherwise [q]
    advances by one. *)
Equations? splitSpacesLoop (part rest : string) : list string
    by wf (String.length rest) lt :=
  splitSpacesLoop part EmptyString := [part];
  splitSpacesLoop part (String c rest') with Js.isWhiteSpace c => {
    | true := part :: splitSpacesLoop EmptyString (Js.trimStart rest');
    | false := splitSpacesLoop (part ++ String c EmptyString)%string rest' }.
Proof.
  pose proof (trimStart_length rest'). lia.
Qed.

(** [s.split(/\s+/)]: for the empty string the pattern does not match it,
    and the result is the string alone. *)
Definition splitSpaces (s : string) : list string :=
  match s with
  | EmptyString => [s]
  | String _ _ => splitSpacesLoop EmptyString s
  end.

(** [.filter(w => w.length > 0)] *)
Definition nonEmptyWords (parts : list string) : list string :=
  filter (fun w => Nat.ltb 0 (String.length w)) parts.

(** The number shown as "... words" under the essay. *)
Definition wordCount (essay : string) : nat :=
  List.length (nonEmptyWords (splitSpaces essay)).

(** [disabled={loading}] of the Analyze button. *)
Definition analyzeDisabled (s : State) : bool := loading s.

(** ** Criterion titles: [formatCriterionName] *)

(** The keys of [result.feedback]. *)
Definition criterionKey (k : Criterion) : string :=
  match k with
  | task_achievement => "task_achievement"
  | coherence_cohesion => "coherence_cohesion"
  | lexical_resource => "lexical_resource"
  | grammatical_range_accuracy => "grammatical_range_accuracy"
  end.

(** [c.toUpperCase()] for a string of one code unit below 256, after the
    Unicode case mappings: the letters a to z and the Latin-1 letters from
    224 to 254 (but the division sign, 247) lose 32; the sharp s (223)
    becomes "SS"; the upper cases of the micro sign (181) and of y with
    diaeresis (255) have a code unit above 255, which is [None] here; every
    other code unit stays. *)
Definition toUpperCase1 (c : ascii) : option string :=
  let n := nat_of_ascii c in
  if Nat.leb 97 n && Nat.leb n 122 then
    Some (String (ascii_of_nat (n - 32)) EmptyString)
  else if Nat.eqb n 181 || Nat.eqb n 255 then None
  else if Nat.eqb n 223 then Some "SS"
  else if Nat.leb 224 n && Nat.leb n 254 && negb (Nat.eqb n 247) then
    Some (String (ascii_of_nat (n - 32)) EmptyString)
  else Some (String c EmptyString).

(** [word.charAt(0).toUpperCase() + word.slice(1)] *)
Definition capitalize (word : string) : option string :=
  match word with
  | EmptyString => Some EmptyString
  | String c rest => option_map (fun u => (u ++ rest)%string) (toUpperCase1 c)
  end.

(** [words.map(capitalize)], [None] when some word has no upper case
    here. *)
Fixpoint capitalizeAll (words : list string) : option (list string) :=
  match words with
  | [] => Some []
  | word :: words' =>
      match capitalize word, capitalizeAll words' with
      | Some u, Some us => Some (u :: us)
      | _, _ => None
      end
  end.

Definition formatCriterionName (key : string) : option string :=
  option_map (Js.join " & ") (capitalizeAll (Js.split key "_")).

(** The code unit [c] does not occur in [w]. *)
Fixpoint lacks (c : ascii) (w : string) : bool :=
  match w with
  | EmptyString => true
  | String a w' => negb (Ascii.eqb c a) && lacks c w'
  end.

(** ** The analysis route: [POST] of [src/app/api/analyze/route.ts]

    The route is run by the request of [handleAnalyze].  What it calls is
    taken as given: [promptOf taskType essay] is the prompt text around the
    two interpolated values, [create] the OpenAI completion for a prompt,
    [parse] is [JSON.parse] ([None] when it throws) and [errorObject]
    builds the object of an error message. *)

(** The body of the request, as [req.json()] gives it.  The two properties
    are strings when present, as the page sends them; [None] is a missing
    or [null] property. *)
Inductive RequestBody :=
  | Unreadable                                  (* [req.json()] rejects *)
  | NullBody                                    (* [null]: destructuring throws *)
  | Fields (essay taskType : option string).

(** What [openai.chat.completions.create] gives. *)
Inductive Completion :=
  | ApiError                                    (* the call rejects *)
  | NoChoice                                    (* [choices[0]] is undefined *)
  | Message (content : option string).          (* [choices[0].message.content] *)

(** [value || fallback] *)
Definition orElse (value : option string) (fallback : string) : string :=
  match value with
  | Some v => if Js.truthy value then v else fallback
  | None => fallback
  end.

Section Route.

Variable Json : Type.
Variable promptOf : string -> string -> string.
Variable create : string -> Completion.
Variable parse : string -> option Json.
Variable errorObject : string -> Json.

Record Response := {
  status : Z;
  payload : Json }.

Definition POST (body : RequestBody) : Response :=
  let failure :=
    {| status := 500; payload := errorObject "Failed to analyze essay" |} in
  match body with
  | Unreadable | NullBody => failure
  | Fields essay taskType =>
      if negb (Js.truthy essay) then
        {| status := 400; payload := errorObject "Essay content is required" |}
      else
        let prompt := promptOf (orElse taskType "Task 2") (orElse essay "") in
        match create prompt with
        | ApiError | NoChoice => failure
        | Message content =>
            match parse (orElse content "{}") with
            | Some result => {| status := 200; payload := result |}
            | None => failure
            end
        end
  end.

(** [taskType] as the page sends it. *)
Definition taskTypeName (t : TaskType) : string :=
  match t with
  | Task1 => "Task 1"
  | Task2 => "Task 2"
  end.

(** The body of the page's request: [JSON.stringify({ essay, taskType })]. *)
Definition analyzeRequest (s : State) : RequestBody :=
  Fields (Some (essay s)) (Some (taskTypeName (taskType s))).

(** [response.ok] *)
Definition responseOk (r : Response) : bool :=
  (200 <=? status r)%Z && (status r <=? 299)%Z.

End Route.

(** ** Well-formed states *)

(** The cursor is a valid index and the essay is the snapshot under it. *)
Definition consistent (s : State) : Prop :=
  (0 <= historyIndex s < Z.of_nat (List.length (history s)))%Z
  /\ Js.get (history s) (historyIndex s) = Some (essay s).

(** Nothing has been committed yet: no snapshot, cursor at -1. *)
Definition pristine (s : State) : Prop :=
  history s = [] /\ historyIndex s = (-1)%Z.

Definition wellFormed (s : State) : Prop := pristine s \/ consistent s.

(** Does the replacement text hold a dollar sign, the escape character of
    [String.prototype.replace]? *)
Fixpoint hasDollar (s : string) : bool :=
  match s with
  | EmptyString => false
  | String c s' => Ascii.eqb c "$" || hasDollar s'
  end.

(** ** Sample data and sample sessions *)

Definition sampleCorrection : Correction.t :=
  Correction.mk "has" "have" "grammar" "Subject-verb agreement.".

Definition sampleResult : FeedbackData :=
  {| band_score := Qmake 6 1;
     prioritized_suggestions := [];
     enrichment := None;
     feedback := fun _ => {| summary := ""; tips := [] |};
     corrections := [sampleCorrection];
     general_comment := "" |}.

(** The user types an essay. *)
Definition typed : State := updateEssay "I has a dog" None mounted.

(** The user then applies the fix of [sampleCorrection]. *)
Definition fixed : State := applyFix "has" "have" false typed.

(** An analysis of the typed essay succeeds. *)
Definition analysed : State :=
  handleAnalyze_settle (Success sampleResult) (handleAnalyze_begin typed).

(** The essay of the specification's replacement example. *)
Definition badBad : State := updateEssay "bad bad" None mounted.

Definition emptySuggestion : PrioritizedSuggestion.t :=
  PrioritizedSuggestion.mk high "Weak thesis" "State your position." None
    (Some "") (Some "In my view, ") "Task Achievement".

Definition emptyTip : Tip.t :=
  Tip.mk "Add a topic sentence." None (Some "") (Some "First, ").

Definition emptyWord : VocabularyEnrichment.t :=
  VocabularyEnrichment.mk "canine" "/keinain/" "noun" "a dog"
    "The canine barked." "Use this instead of dog" (Some "") (Some "canine").

(** [fixed] after an undo: the cursor is back on the first snapshot. *)
Definition undone : State := setEssay "I has a dog" (setHistoryIndex 0%Z fixed).

(** The analysed essay fixed with the shift key held: no last-changed
    record. *)
Definition fixedQuietly : State := applyFix "has" "have" true analysed.

(** Ctrl+Z, Cmd+Y and a plain key. *)
Definition sampleKeys : list KeyboardEvent :=
  [ {| ctrlKey := true; metaKey := false; key := "z" |};
    {| ctrlKey := false; metaKey := true; key := "y" |};
    {| ctrlKey := false; metaKey := false; key := "a" |} ].

(** A model that answers with no content.  A small type of JSON values,
    the empty object and the object of an error message, with the part of
    [JSON.parse] that reads the empty object. *)
Definition silentModel (prompt : string) : Completion := Message None.

Inductive SampleJson :=
  | EmptyObject
  | ErrorObject (error : string).

Definition parseSample (text : string) : option SampleJson :=
  if String.eqb text "{}" then Some EmptyObject else None.

(** A result with a suggestion and a tip that replace has by have, and a
    vocabulary item that replaces dog by hound. *)
Definition sampleSuggestion : PrioritizedSuggestion.t :=
  PrioritizedSuggestion.mk high "Agreement" "Use the plural verb." None
    (Some "has") (Some "have") "Grammar".

Definition sampleTip : Tip.t :=
  Tip.mk "Check subject-verb agreement." None (Some "has") (Some "have").

Definition sampleWord : VocabularyEnrichment.t :=
  VocabularyEnrichment.mk "hound" "/haund/" "noun" "a dog"
    "The hound barked." "Use this instead of dog" (Some "dog") (Some "hound").

Definition suggestedResult : FeedbackData :=
  {| band_score := Qmake 6 1;
     prioritized_suggestions := [sampleSuggestion];
     enrichment := Some [sampleWord];
     feedback := fun _ => {| summary := ""; tips := [sampleTip] |};
     corrections := [sampleCorrection];
     general_comment := "" |}.

(** The typed essay analysed with that result, then fixed: "has" is no
    longer in the essay. *)
Definition suggested : State :=
  handleAnalyze_settle (Success suggestedResult) (handleAnalyze_begin typed).

Definition suggestedFixed : State := applyFix "has" "have" false suggested.

(** ** Facts about the string operations *)

Section StringFacts.

Local Open Scope string_scope.

Lemma append_assoc (a b c : string) : (a ++ b) ++ c = a ++ (b ++ c).
Proof. induction a as [|x a IH]; simpl; [reflexivity | now rewrite IH]. Qed.

Lemma append_empty_r (a : string) : a ++ "" = a.
Proof. induction a as [|x a IH]; simpl; [reflexivity | now rewrite IH]. Qed.

Lemma substringFrom_0 (s : string) : Js.substringFrom s 0 = s.
Proof. now destruct s. Qed.

Lemma startsWith_append (p t : string) : Js.startsWith (p ++ t) p = true.
Proof.
  induction p as [|a p IH]; simpl; [now destruct t|].
  now rewrite Ascii.eqb_refl, IH.
Qed.

Lemma startsWith_cut (s p : string) :
  Js.startsWith s p = true -> s = p ++ Js.substringFrom s (String.length p).
Proof.
  revert s. induction p as [|a p IH]; intros s; simpl.
  - now rewrite substringFrom_0.
  - destruct s as [|b s]; [discriminate|].
    intros E. apply andb_prop in E as [Eab E].
    apply Ascii.eqb_eq in Eab. subst b. simpl. f_equal. now apply IH.
Qed.

(** A found position cuts the rest of the string into the text before the
    occurrence, the occurrence and the text after it. *)
Lemma StringIndexOf_cut (s searchValue : string) (fromIndex j : nat) :
  Js.StringIndexOf s searchValue fromIndex = Some j ->
  Js.substringFrom s fromIndex
  = Js.substring s fromIndex j ++ searchValue
      ++ Js.substringFrom s (j + String.length searchValue).
Proof.
  revert fromIndex j.
  induction s as [|b s IH]; intros [|i] j; cbn [Js.StringIndexOf].
  - destruct (Js.startsWith "" searchValue) eqn:E; [|discriminate].
    intros [= <-]. destruct searchValue; [reflexivity | discriminate].
  - discriminate.
  - destruct (Js.startsWith (String b s) searchValue) eqn:E.
    + intros [= <-]. rewrite substringFrom_0. now apply startsWith_cut.
    + destruct (Js.StringIndexOf s searchValue 0) as [k|] eqn:F; [|discriminate].
      intros [= <-]. apply IH in F. rewrite substringFrom_0 in *.
      unfold Js.substring in *. rewrite Nat.sub_0_r in *. simpl.
      now rewrite <- F.
  - destruct (Js.StringIndexOf s searchValue i) as [k|] eqn:F; [|discriminate].
    intros [= <-]. apply IH in F. simpl. exact F.
Qed.

(** The text before the first occurrence has [j] code units. *)
Lemma substring_length (s : string) (i j : nat) :
  i <= j -> j <= String.length s -> String.length (Js.substring s i j) = j - i.
Proof.
  unfold Js.substring. intros Hij Hj.
  assert (H : i + (j - i) <= String.length s) by lia.
  revert H. generalize (j - i) as m. clear. revert i.
  induction s as [|b s IH]; intros [|i] [|m]; simpl; intros; try lia.
  - rewrite (IH 0 m); simpl; lia.
  - apply (IH i 0); lia.
  - apply (IH i (S m)); lia.
Qed.

Lemma join_codeUnits (s : string) : Js.join "" (Js.codeUnits s) = s.
Proof.
  induction s as [|c s IH]; [reflexivity|].
  cbn [Js.codeUnits Js.join]. destruct (Js.codeUnits s) eqn:E.
  - destruct s; [reflexivity | discriminate].
  - now rewrite IH.
Qed.

Lemma splitLoop_nonempty (s : string) (c : ascii) (r : string) (i : nat) :
  Js.splitLoop s c r i <> [].
Proof. funelim (Js.splitLoop s c r i); discriminate. Qed.

Lemma join_cons (separator part : string) (parts : list string) :
  parts <> [] ->
  Js.join separator (part :: parts) = part ++ separator ++ Js.join separator parts.
Proof. destruct parts; [congruence | reflexivity]. Qed.

Lemma join_splitLoop (s : string) (c : ascii) (r : string) (i : nat) :
  Js.join (String c r) (Js.splitLoop s c r i) = Js.substringFrom s i.
Proof.
  funelim (Js.splitLoop s c r i).
  - rewrite join_cons by apply splitLoop_nonempty.
    rewrite H. symmetry. now apply StringIndexOf_cut.
  - reflexivity.
Qed.

(** Splitting is lossless: joining the parts with the separator gives the
    string back. *)
Lemma join_split (s separator : string) : Js.join separator (Js.split s separator) = s.
Proof.
  unfold Js.split. destruct separator as [|c r].
  - apply join_codeUnits.
  - destruct s as [|b s]; [reflexivity|].
    rewrite join_splitLoop. apply substringFrom_0.
Qed.

End StringFacts.

(** ** The annotator keeps the text *)

Section Annotator.

Local Open Scope string_scope.

Lemma concatText_app (a b : list Segment) :
  concatText (a ++ b) = concatText a ++ concatText b.
Proof.
  induction a as [|x a IH]; simpl; [reflexivity|].
  now rewrite IH, append_assoc.
Qed.

Lemma concatText_pushParts (span : nat -> Segment) (separator : string)
    (parts : list string) (i len : nat) :
  (forall k, segmentText (span k) = separator) ->
  len = i + List.length parts ->
  concatText (pushParts span parts i len) = Js.join separator parts.
Proof.
  intros Hspan. revert i.
  induction parts as [|part parts IH]; intros i Hlen; [reflexivity|].
  cbn [pushParts]. destruct parts as [|part' parts].
  - simpl in Hlen.
    replace (Z.of_nat i <? Z.of_nat len - 1)%Z with false
      by (symmetry; apply Z.ltb_ge; lia).
    simpl. apply append_empty_r.
  - replace (Z.of_nat i <? Z.of_nat len - 1)%Z with true
      by (symmetry; apply Z.ltb_lt; simpl in Hlen; lia).
    rewrite join_cons by discriminate.
    cbn [concatText app segmentText]. rewrite Hspan.
    rewrite (IH (S i)) by (simpl in *; lia). reflexivity.
Qed.

Lemma concatText_flat_map (f : Segment -> list Segment) (l : list Segment) :
  (forall segment, concatText (f segment) = segmentText segment) ->
  concatText (flat_map f l) = concatText l.
Proof.
  intros Hf. induction l as [|x l IH]; [reflexivity|].
  cbn [flat_map]. rewrite concatText_app, Hf, IH. reflexivity.
Qed.

Lemma concatText_single (segment : Segment) :
  concatText [segment] = segmentText segment.
Proof. apply append_empty_r. Qed.

Lemma concatText_annotateCorrection (correction : Correction.t) (index : nat)
    (annotatedText : list Segment) :
  concatText (annotateCorrection correction index annotatedText)
  = concatText annotatedText.
Proof.
  apply concatText_flat_map. intros [text| |]; try apply concatText_single.
  cbv beta zeta. destruct (Nat.ltb 1 _); [|apply concatText_single].
  rewrite concatText_pushParts with (separator := Correction.original correction);
    [apply join_split | reflexivity | reflexivity].
Qed.

Lemma concatText_annotateCorrections (cs : list Correction.t) (index : nat)
    (annotatedText : list Segment) :
  concatText (annotateCorrections cs index annotatedText)
  = concatText annotatedText.
Proof.
  revert index annotatedText.
  induction cs as [|c cs IH]; intros index annotatedText; [reflexivity|].
  cbn [annotateCorrections]. rewrite IH. apply concatText_annotateCorrection.
Qed.

Lemma concatText_annotateModified (lastModified : string)
    (annotatedText : list Segment) :
  concatText (annotateModified lastModified annotatedText)
  = concatText annotatedText.
Proof.
  apply concatText_flat_map. intros [text| |]; try apply concatText_single.
  cbv beta zeta. destruct (Js.includes text lastModified); [|apply concatText_single].
  rewrite concatText_pushParts with (separator := lastModified);
    [apply join_split | reflexivity | reflexivity].
Qed.

(** C3 (partition invariant).  For every state of the page, whatever the
    essay, the installed result with its ordered corrections (or no result)
    and the last-changed text (or none), the texts of the runs produced by
    [renderAnnotatedEssay] (plain strings, correction spans and last-change
    spans), concatenated in order, are exactly the essay. *)
Theorem annotator_partition (s : State) :
  concatText (runs (renderAnnotatedEssay s)) = essay s.
Proof.
  unfold renderAnnotatedEssay.
  destruct (result s) as [r|]; [|apply concatText_single].
  assert (H : concatText (annotateCorrections (corrections r) 0 [Text (essay s)])
              = essay s)
    by (rewrite concatText_annotateCorrections; apply concatText_single).
  destruct (lastModifiedText s) as [lastModified|]; [|exact H].
  destruct (Js.truthy (Some lastModified)); [|exact H].
  cbn [runs]. rewrite concatText_annotateModified. exact H.
Qed.

End Annotator.

(** ** The history invariant *)

Section History.

Lemma slice0_firstn {A : Type} (a : list A) (end_ : Z) :
  (0 <= end_)%Z -> Js.slice0 a end_ = firstn (Z.to_nat end_) a.
Proof.
  intros H. unfold Js.slice0.
  replace (end_ <? 0)%Z with false by (symmetry; apply Z.ltb_ge; lia).
  destruct (Z.le_gt_cases end_ (Z.of_nat (List.length a))) as [Hle|Hgt].
  - now rewrite Z.min_l.
  - rewrite Z.min_r by lia. rewrite Nat2Z.id.
    rewrite !firstn_all2; [reflexivity | lia | lia].
Qed.

Lemma get_Some {A : Type} (a : list A) (i : Z) (x : A) :
  Js.get a i = Some x <-> (0 <= i)%Z /\ nth_error a (Z.to_nat i) = Some x.
Proof.
  unfold Js.get. destruct (Z.ltb_spec i 0); split.
  - discriminate.
  - intros [? _]. lia.
  - auto.
  - now intros [_ ?].
Qed.

Lemma get_in_range {A : Type} (a : list A) (i : Z) :
  (0 <= i < Z.of_nat (List.length a))%Z -> exists x, Js.get a i = Some x.
Proof.
  intros H. destruct (nth_error a (Z.to_nat i)) as [x|] eqn:E.
  - exists x. apply get_Some. split; [lia | exact E].
  - apply nth_error_None in E. lia.
Qed.

Lemma updateEssay_essay (x : string) (o : option string) (s : State) :
  essay (updateEssay x o s) = x.
Proof. unfold updateEssay. now destruct (Js.truthy o). Qed.

Lemma updateEssay_history (x : string) (o : option string) (s : State) :
  history (updateEssay x o s) = Js.slice0 (history s) (historyIndex s + 1) ++ [x].
Proof. unfold updateEssay. now destruct (Js.truthy o). Qed.

Lemma updateEssay_historyIndex (x : string) (o : option string) (s : State) :
  historyIndex (updateEssay x o s)
  = (Z.of_nat (List.length (history (updateEssay x o s))) - 1)%Z.
Proof. unfold updateEssay. now destruct (Js.truthy o). Qed.

Lemma updateEssay_result (x : string) (o : option string) (s : State) :
  result (updateEssay x o s) = result s
  /\ loading (updateEssay x o s) = loading s
  /\ error (updateEssay x o s) = error s.
Proof. unfold updateEssay. now destruct (Js.truthy o). Qed.

(** Every commit ends in a consistent state, whatever the state before. *)
Lemma updateEssay_consistent (x : string) (o : option string) (s : State) :
  consistent (updateEssay x o s).
Proof.
  unfold consistent.
  rewrite updateEssay_historyIndex, updateEssay_history, updateEssay_essay.
  rewrite length_app, Nat.add_1_r. split; [lia|].
  apply get_Some. split; [lia|].
  replace (Z.to_nat (Z.of_nat (S (List.length (Js.slice0 (history s) (historyIndex s + 1)))) - 1))
    with (List.length (Js.slice0 (history s) (historyIndex s + 1))) by lia.
  rewrite nth_error_app2 by lia. now rewrite Nat.sub_diag.
Qed.

Lemma applyFix_updateEssay (original replacement : string) (shiftKey : bool)
    (s : State) :
  let newEssay := Js.replace (essay s) original replacement in
  let o := if shiftKey then None else Some replacement in
  essay (applyFix original replacement shiftKey s) = newEssay
  /\ history (applyFix original replacement shiftKey s)
     = history (updateEssay newEssay o s)
  /\ historyIndex (applyFix original replacement shiftKey s)
     = historyIndex (updateEssay newEssay o s)
  /\ result (applyFix original replacement shiftKey s) = result s
  /\ loading (applyFix original replacement shiftKey s) = loading s
  /\ error (applyFix original replacement shiftKey s) = error s.
Proof.
  unfold applyFix.
  destruct shiftKey, (selectedCriterion s); cbn -[updateEssay Js.replace];
    rewrite updateEssay_essay;
    repeat split; try reflexivity; apply updateEssay_result.
Qed.

Lemma applyFix_consistent (original replacement : string) (shiftKey : bool)
    (s : State) :
  consistent (applyFix original replacement shiftKey s).
Proof.
  pose proof (applyFix_updateEssay original replacement shiftKey s) as H.
  cbv zeta in H. destruct H as (He & Hh & Hi & _).
  pose proof (updateEssay_consistent (Js.replace (essay s) original replacement)
                (if shiftKey then None else Some replacement) s) as Hc.
  unfold consistent in *. rewrite He, Hh, Hi.
  now rewrite updateEssay_essay in Hc.
Qed.

Lemma handleUndo_at_start (s : State) :
  (historyIndex s <= 0)%Z -> handleUndo s = Some s.
Proof.
  intros H. unfold handleUndo.
  now replace (0 <? historyIndex s)%Z with false by (symmetry; apply Z.ltb_ge; lia).
Qed.

Lemma handleRedo_at_end (s : State) :
  (Z.of_nat (List.length (history s)) - 1 <= historyIndex s)%Z ->
  handleRedo s = Some s.
Proof.
  intros H. unfold handleRedo.
  now replace (historyIndex s <? Z.of_nat (List.length (history s)) - 1)%Z
    with false by (symmetry; apply Z.ltb_ge; lia).
Qed.

(** Undo with the cursor after the first snapshot: one position back. *)
Lemma handleUndo_back (s : State) :
  (0 < historyIndex s <= Z.of_nat (List.length (history s)))%Z ->
  exists snapshot,
    Js.get (history s) (historyIndex s - 1) = Some snapshot
    /\ handleUndo s
       = Some (setEssay snapshot (setHistoryIndex (historyIndex s - 1) s)).
Proof.
  intros H. unfold handleUndo.
  replace (0 <? historyIndex s)%Z with true by (symmetry; apply Z.ltb_lt; lia).
  destruct (get_in_range (history s) (historyIndex s - 1)) as [x Hx]; [lia|].
  exists x. now rewrite Hx.
Qed.

(** Redo with a snapshot after the cursor: one position forward. *)
Lemma handleRedo_forward (s : State) :
  (-1 <= historyIndex s < Z.of_nat (List.length (history s)) - 1)%Z ->
  exists snapshot,
    Js.get (history s) (historyIndex s + 1) = Some snapshot
    /\ handleRedo s
       = Some (setEssay snapshot (setHistoryIndex (historyIndex s + 1) s)).
Proof.
  intros H. unfold handleRedo.
  replace (historyIndex s <? Z.of_nat (List.length (history s)) - 1)%Z
    with true by (symmetry; apply Z.ltb_lt; lia).
  destruct (get_in_range (history s) (historyIndex s + 1)) as [x Hx]; [lia|].
  exists x. now rewrite Hx.
Qed.

(** Undo and redo never fail on a well-formed state; they keep the history
    sequence, every other cell but the essay and the cursor, and the
    invariant. *)
Lemma handleUndo_wellFormed (s : State) :
  wellFormed s ->
  exists s', handleUndo s = Some s'
    /\ history s' = history s
    /\ (pristine s -> s' = s)
    /\ (consistent s -> consistent s').
Proof.
  intros [[Hh Hi]|[Hr Hg]].
  - exists s. rewrite handleUndo_at_start by lia. auto.
  - destruct (Z.le_gt_cases (historyIndex s) 0) as [H0|H0].
    + exists s. rewrite handleUndo_at_start by lia. auto.
    + destruct (handleUndo_back s) as (x & Hx & ->); [lia|].
      eexists. split; [reflexivity|]. split; [reflexivity|]. split.
      * intros [_ Hp]. lia.
      * intros _. split; cbn; [lia | exact Hx].
Qed.

Lemma handleRedo_wellFormed (s : State) :
  wellFormed s ->
  exists s', handleRedo s = Some s'
    /\ history s' = history s
    /\ (pristine s -> s' = s)
    /\ (consistent s -> consistent s').
Proof.
  intros [[Hh Hi]|[Hr Hg]].
  - exists s. rewrite handleRedo_at_end by (rewrite Hh, Hi; simpl; lia). auto.
  - destruct (Z.le_gt_cases (Z.of_nat (List.length (history s)) - 1) (historyIndex s))
      as [H0|H0].
    + exists s. rewrite handleRedo_at_end by lia. auto.
    + destruct (handleRedo_forward s) as (x & Hx & ->); [lia|].
      eexists. split; [reflexivity|]. split; [reflexivity|]. split.
      * intros [_ Hp]. lia.
      * intros _. split; cbn; [lia | exact Hx].
Qed.

End History.

(** ** Sessions keep the invariant *)

Section Sessions.

Lemma react_wellFormed (e : Event) (s : State) :
  wellFormed s ->
  exists s', react e s = Some s'
    /\ (if commits e then consistent s'
        else history s' = history s
             /\ (pristine s -> s' = s)
             /\ (consistent s -> consistent s')).
Proof.
  intros Hs. destruct e as [x|orig repl shift| |]; cbn [react commits].
  - eexists. split; [reflexivity | apply updateEssay_consistent].
  - eexists. split; [reflexivity | apply applyFix_consistent].
  - destruct (handleUndo_wellFormed s Hs) as (s' & -> & H). now exists s'.
  - destruct (handleRedo_wellFormed s Hs) as (s' & -> & H). now exists s'.
Qed.

(** A session never reads outside the history, and ends consistent as soon
    as it holds one commit. *)
Lemma run_wellFormed (es : list Event) (s : State) :
  wellFormed s ->
  exists s', run es s = Some s'
    /\ (if existsb commits es then consistent s'
        else history s' = history s
             /\ (pristine s -> s' = s)
             /\ (consistent s -> consistent s')).
Proof.
  revert s. induction es as [|e es IH]; intros s Hs.
  - exists s. cbn. auto.
  - destruct (react_wellFormed e s Hs) as (s1 & He & H1).
    cbn [run existsb]. rewrite He.
    assert (Hw : wellFormed s1).
    { destruct (commits e); [now right|].
      destruct H1 as (_ & Hp & Hc). destruct Hs as [Hs|Hs].
      - left. now rewrite (Hp Hs).
      - right. auto. }
    destruct (IH s1 Hw) as (s' & Hr & H'). exists s'. split; [exact Hr|].
    destruct (commits e); cbn [orb].
    + destruct (existsb commits es); [exact H'|]. now apply H'.
    + destruct (existsb commits es); [exact H'|].
      destruct H1 as (Hh1 & Hp1 & Hc1). destruct H' as (Hh' & Hp' & Hc').
      split; [congruence|]. split.
      * intros Hp. pose proof (Hp1 Hp) as E. subst s1. auto.
      * auto.
Qed.

Lemma run_total (es : list Event) : exists s, run es mounted = Some s.
Proof.
  destruct (run_wellFormed es mounted) as (s & H & _); [|now exists s].
  left. split; reflexivity.
Qed.

(** Once a snapshot is recorded, the first snapshot stays the first. *)
Lemma react_first_snapshot (e : Event) (s : State) (x : string) :
  consistent s -> Js.get (history s) 0 = Some x ->
  exists s', react e s = Some s' /\ consistent s' /\ Js.get (history s') 0 = Some x.
Proof.
  intros Hc Hx.
  assert (Hcommit : forall y o, Js.get (history (updateEssay y o s)) 0 = Some x).
  { intros y o. rewrite updateEssay_history.
    destruct Hc as [Hr _]. rewrite slice0_firstn by lia.
    apply get_Some in Hx as [_ Hx]. apply get_Some. split; [lia|].
    change (Z.to_nat 0) with 0 in *.
    destruct (history s) as [|h0 hs]; [discriminate|].
    destruct (Z.to_nat (historyIndex s + 1)) eqn:E; [lia|]. exact Hx. }
  destruct (react_wellFormed e s (or_intror Hc)) as (s' & He & H).
  exists s'. split; [exact He|].
  destruct e as [y|orig repl shift| |]; cbn [commits react] in *.
  - injection He as <-. auto.
  - injection He as <-. split; [exact H|].
    destruct (applyFix_updateEssay orig repl shift s) as (_ & -> & _).
    apply Hcommit.
  - destruct H as (-> & _ & H). auto.
  - destruct H as (-> & _ & H). auto.
Qed.

Lemma run_first_snapshot (es : list Event) (s : State) (x : string) :
  consistent s -> Js.get (history s) 0 = Some x ->
  exists s', run es s = Some s' /\ consistent s' /\ Js.get (history s') 0 = Some x.
Proof.
  revert s. induction es as [|e es IH]; intros s Hc Hx.
  - exists s. auto.
  - destruct (react_first_snapshot e s x Hc Hx) as (s1 & He & Hc1 & Hx1).
    cbn [run]. rewrite He. now apply IH.
Qed.

(** Undoing as far as the cursor allows ends on the first snapshot. *)
Lemma undo_to_first_snapshot (n : nat) (s : State) (x : string) :
  consistent s -> Js.get (history s) 0 = Some x ->
  (historyIndex s <= Z.of_nat n)%Z ->
  exists s', run (repeat Undo n) s = Some s'
             /\ historyIndex s' = 0%Z /\ essay s' = x
             /\ history s' = history s.
Proof.
  revert s. induction n as [|n IH]; intros s Hc Hx Hn.
  - exists s. destruct Hc as [Hr Hg].
    assert (E : historyIndex s = 0%Z) by lia.
    rewrite E in Hg. cbn [repeat run]. repeat split; congruence.
  - cbn [repeat run react].
    destruct (Z.le_gt_cases (historyIndex s) 0) as [H0|H0].
    + rewrite handleUndo_at_start by lia. apply IH; auto. lia.
    + destruct Hc as [Hr Hg].
      destruct (handleUndo_back s) as (snap & Hsnap & ->); [lia|].
      destruct (IH (setEssay snap (setHistoryIndex (historyIndex s - 1) s)))
        as (s' & Hrun & H'); [split; cbn; [lia | exact Hsnap] | exact Hx | cbn; lia |].
      exists s'. split; [exact Hrun | exact H'].
Qed.

(** No document event clears the last-changed record. *)
Lemma react_keeps_lastModifiedText (e : Event) (s s' : State) :
  react e s = Some s' ->
  lastModifiedText s <> None -> lastModifiedText s' <> None.
Proof.
  assert (Hu : forall x o, lastModifiedText s <> None ->
                 lastModifiedText (updateEssay x o s) <> None).
  { intros x o H. unfold updateEssay.
    destruct o as [[|c t]|]; cbn; try exact H. discriminate. }
  destruct e as [x|orig repl shift| |]; cbn [react].
  - intros [= <-]. apply Hu.
  - intros [= <-] H. unfold applyFix.
    destruct shift, (selectedCriterion s); cbn -[updateEssay Js.replace];
      now apply Hu.
  - unfold handleUndo. destruct (0 <? historyIndex s)%Z; [|now intros [= <-]].
    destruct (Js.get _ _); [|discriminate]. now intros [= <-].
  - unfold handleRedo.
    destruct (historyIndex s <? _)%Z; [|now intros [= <-]].
    destruct (Js.get _ _); [|discriminate]. now intros [= <-].
Qed.

(** C6 (history consistency), as the code has it.  For every finite
    sequence of document events (text edits and applied fixes, which commit
    a snapshot, interleaved with undo and redo), after every prefix of it the
    session is in a state [s] such that: if the prefix holds at least one
    commit, the cursor is a valid index into the history and the essay is
    the snapshot at the cursor; if it holds none, the state is still the
    start state (empty history, cursor -1).  In that state undo with the
    cursor at index 0 (or below) is a no-op, and redo with the cursor at the
    last index is a no-op. *)
Theorem history_consistency (es : list Event) (k : nat) :
  exists s,
    run (firstn k es) mounted = Some s
    /\ (if existsb commits (firstn k es) then consistent s else s = mounted)
    /\ ((historyIndex s <= 0)%Z -> handleUndo s = Some s)
    /\ (historyIndex s = (Z.of_nat (List.length (history s)) - 1)%Z ->
        handleRedo s = Some s).
Proof.
  assert (Hm : pristine mounted) by (split; reflexivity).
  destruct (run_wellFormed (firstn k es) mounted (or_introl Hm)) as (s & Hr & H).
  exists s. split; [exact Hr|]. split.
  - destruct (existsb commits (firstn k es)); [exact H | now apply H].
  - split.
    + apply handleUndo_at_start.
    + intros E. apply handleRedo_at_end. lia.
Qed.

(** C7 (branch truncation).  For every state whose cursor is a valid index
    strictly greater than 0, undo succeeds, and committing a new text [x]
    after it leaves exactly the snapshots before the old cursor followed by
    [x], with the cursor on [x], the last index: redo is then a no-op, and
    whatever undo and redo are performed afterwards, the history stays this
    one, so that no snapshot that was after the cursor is reachable. *)
Theorem branch_truncation (s : State) (x : string) (o : option string) :
  (0 < historyIndex s < Z.of_nat (List.length (history s)))%Z ->
  exists s1,
    handleUndo s = Some s1
    /\ let s2 := updateEssay x o s1 in
       history s2 = firstn (Z.to_nat (historyIndex s)) (history s) ++ [x]
       /\ historyIndex s2 = (Z.of_nat (List.length (history s2)) - 1)%Z
       /\ historyIndex s2 = historyIndex s
       /\ handleRedo s2 = Some s2
       /\ forall moves, existsb commits moves = false ->
            exists s3, run moves s2 = Some s3
                       /\ history s3 = history s2 /\ consistent s3.
Proof.
  intros H. destruct (handleUndo_back s) as (snap & Hsnap & Hu); [lia|].
  eexists. split; [exact Hu|]. cbv zeta.
  set (s1 := setEssay snap (setHistoryIndex (historyIndex s - 1) s)).
  assert (Hh : history (updateEssay x o s1)
               = firstn (Z.to_nat (historyIndex s)) (history s) ++ [x]).
  { rewrite updateEssay_history. cbn [s1 history historyIndex setEssay setHistoryIndex].
    rewrite slice0_firstn by lia. do 2 f_equal. lia. }
  assert (Hi : historyIndex (updateEssay x o s1)
               = (Z.of_nat (List.length (history (updateEssay x o s1))) - 1)%Z)
    by apply updateEssay_historyIndex.
  split; [exact Hh|]. split; [exact Hi|]. split.
  - rewrite Hi, Hh, length_app, length_firstn. cbn [List.length]. lia.
  - split; [apply handleRedo_at_end; lia|].
    intros moves Hm.
    pose proof (updateEssay_consistent x o s1) as Hc.
    destruct (run_wellFormed moves _ (or_intror Hc)) as (s3 & Hr & H3).
    rewrite Hm in H3. exists s3. split; [exact Hr|]. split; [apply H3|].
    now apply H3.
Qed.

(** C8 (undo and the last-changed record), as the code has it.  For every
    state whose cursor is a valid index strictly greater than 0, undo moves
    the cursor back one position and makes the essay the snapshot there; the
    history and the last-changed record are left as they were: a record that
    is set stays set. *)
Theorem undo_keeps_lastModifiedText (s : State) :
  (0 < historyIndex s < Z.of_nat (List.length (history s)))%Z ->
  exists s',
    handleUndo s = Some s'
    /\ historyIndex s' = (historyIndex s - 1)%Z
    /\ Js.get (history s) (historyIndex s') = Some (essay s')
    /\ history s' = history s
    /\ lastModifiedText s' = lastModifiedText s.
Proof.
  intros H. destruct (handleUndo_back s) as (snap & Hsnap & Hu); [lia|].
  eexists. split; [exact Hu|]. cbn. auto.
Qed.

(** C10 (the initial text is not a snapshot).  The session starts with an
    empty history and the cursor at -1; the first edit leaves the history
    with exactly its own text and the cursor at 0, so that undo right after
    it is a no-op; and whatever events follow, the session goes on in a
    consistent state whose first snapshot is still the text of that first
    edit, and undoing all the way back from there ends on that text: undo
    never gets back to the text before the first edit. *)
Theorem initial_text_not_recorded :
  history mounted = [] /\ historyIndex mounted = (-1)%Z
  /\ forall x : string,
       history (updateEssay x None mounted) = [x]
       /\ historyIndex (updateEssay x None mounted) = 0%Z
       /\ essay (updateEssay x None mounted) = x
       /\ handleUndo (updateEssay x None mounted) = Some (updateEssay x None mounted)
       /\ forall es : list Event,
            exists s, run (SetText x :: es) mounted = Some s
                      /\ consistent s
                      /\ Js.get (history s) 0 = Some x
                      /\ forall m : nat,
                           exists s',
                             run (repeat Undo (Z.to_nat (historyIndex s) + m)) s = Some s'
                             /\ historyIndex s' = 0%Z /\ essay s' = x.
Proof.
  split; [reflexivity|]. split; [reflexivity|]. intros x.
  split; [reflexivity|]. split; [reflexivity|]. split; [reflexivity|].
  split; [reflexivity|]. intros es. cbn [run react].
  destruct (run_first_snapshot es (updateEssay x None mounted) x)
    as (s & Hr & Hc & Hx); [apply updateEssay_consistent | reflexivity |].
  exists s. split; [exact Hr|]. split; [exact Hc|]. split; [exact Hx|].
  intros m.
  destruct (undo_to_first_snapshot (Z.to_nat (historyIndex s) + m) s x Hc Hx)
    as (s' & Hu & Hi & He & _); [destruct Hc; lia|].
  exists s'. auto.
Qed.

End Sessions.

(** ** The edit applier *)

Section EditApplier.

Local Open Scope string_scope.

(** [includes] decides the substring relation. *)
Lemma includes_true (s t : string) :
  Js.includes s t = true <-> exists a b, s = a ++ t ++ b.
Proof.
  unfold Js.includes. split.
  - destruct (Js.StringIndexOf s t 0) as [j|] eqn:E; [|discriminate].
    intros _. apply StringIndexOf_cut in E. rewrite substringFrom_0 in E.
    eauto.
  - intros (a & b & ->).
    assert (H : exists j, Js.StringIndexOf (a ++ t ++ b) t 0 = Some j).
    { induction a as [|c a IH].
      - exists 0. cbn [append].
        destruct (t ++ b) eqn:E; cbn [Js.StringIndexOf];
          rewrite <- E, startsWith_append; reflexivity.
      - destruct IH as [j Hj]. cbn [append Js.StringIndexOf].
        destruct (Js.startsWith _ t); [now exists 0|].
        rewrite Hj. now exists (S j). }
    destruct H as [j ->]. reflexivity.
Qed.

(** The position found is the first one. *)
Lemma StringIndexOf_first (s t : string) (j : nat) :
  Js.StringIndexOf s t 0 = Some j ->
  forall a b, s = a ++ t ++ b -> j <= String.length a.
Proof.
  revert j. induction s as [|c s IH]; intros j; cbn [Js.StringIndexOf].
  - destruct (Js.startsWith "" t); [|discriminate]. intros [= <-]. lia.
  - destruct (Js.startsWith (String c s) t) eqn:E; [intros [= <-]; lia|].
    destruct (Js.StringIndexOf s t 0) as [k|] eqn:F; [|discriminate].
    intros [= <-] a b Hs. destruct a as [|c' a].
    + cbn [append] in Hs. rewrite Hs, startsWith_append in E. discriminate.
    + cbn [append] in Hs. injection Hs as _ Hs.
      specialize (IH k eq_refl a b Hs). simpl. lia.
Qed.

Lemma replace_absent (s target replacement : string) :
  Js.includes s target = false -> Js.replace s target replacement = s.
Proof.
  unfold Js.includes, Js.replace.
  now destruct (Js.StringIndexOf s target 0).
Qed.

(** A replacement text without dollar sign is inserted as it is. *)
Lemma GetSubstitution_literal (matched str : string) (position : nat)
    (template : string) :
  hasDollar template = false ->
  Js.GetSubstitution matched str position template = template.
Proof.
  induction template as [|c rest IH]; [reflexivity|].
  cbn [hasDollar Js.GetSubstitution]. intros H.
  apply orb_false_elim in H as [Hc Hrest]. rewrite Hc. cbn [negb].
  now rewrite IH.
Qed.

(** X17.  First-occurrence replacement, for replacement texts without dollar
    sign: the essay is cut at the first occurrence of the target, and the
    target there is exchanged for the replacement. *)
Lemma applyFix_first_occurrence (s : State) (target replacement : string)
    (shiftKey : bool) :
  hasDollar replacement = false ->
  Js.includes (essay s) target = true ->
  exists pre post,
    essay s = pre ++ target ++ post
    /\ essay (applyFix target replacement shiftKey s) = pre ++ replacement ++ post
    /\ forall a b, essay s = a ++ target ++ b -> String.length pre <= String.length a.
Proof.
  intros Hd Hin.
  destruct (applyFix_updateEssay target replacement shiftKey s) as (-> & _).
  unfold Js.includes in Hin. unfold Js.replace.
  destruct (Js.StringIndexOf (essay s) target 0) as [j|] eqn:E; [|discriminate].
  pose proof (StringIndexOf_cut _ _ _ _ E) as Hcut.
  pose proof (Js.StringIndexOf_range _ _ _ _ E) as Hrange.
  rewrite substringFrom_0 in Hcut.
  exists (Js.substring (essay s) 0 j),
         (Js.substringFrom (essay s) (j + String.length target)).
  split; [exact Hcut|]. split.
  - cbv zeta. now rewrite GetSubstitution_literal.
  - intros a b Hab. rewrite substring_length by lia.
    pose proof (StringIndexOf_first _ _ _ E a b Hab). lia.
Qed.

(** C5 (applying twice), as the code has it.  For every state and every
    suggestion with a non-empty target: the first apply makes the essay the
    text in which the first occurrence of the target is substituted; after
    it the suggestion is reported applied exactly when that text no longer
    contains the target.  In that case the second apply leaves the essay
    text unchanged, and, if the target occurred in the essay, the first
    apply did change the essay and the suggestion was not reported applied
    before it.  In the other case the target is still there (as in
    "bad bad" with good for bad, or "aab" with b for ab), the suggestion is
    not reported applied and the second apply substitutes once more. *)
Theorem applyFix_twice (s : State) (target replacement : string)
    (shift1 shift2 : bool) :
  target <> "" ->
  let substituted := Js.replace (essay s) target replacement in
  let s1 := applyFix target replacement shift1 s in
  let s2 := applyFix target replacement shift2 s1 in
  essay s1 = substituted
  /\ isApplied (essay s1) (Some target) = negb (Js.includes substituted target)
  /\ (Js.includes substituted target = false ->
      essay s2 = essay s1
      /\ (Js.includes (essay s) target = true ->
          essay s1 <> essay s /\ isApplied (essay s) (Some target) = false))
  /\ (Js.includes substituted target = true ->
      essay s2 = Js.replace substituted target replacement).
Proof.
  intros Hne. cbv zeta.
  destruct (applyFix_updateEssay target replacement shift1 s) as (He1 & _).
  destruct (applyFix_updateEssay target replacement shift2
              (applyFix target replacement shift1 s)) as (He2 & _).
  cbv zeta in He1, He2. rewrite He2, He1.
  assert (Hisa : forall e, isApplied e (Some target) = negb (Js.includes e target))
    by (intros e; unfold isApplied; destruct target; [congruence | reflexivity]).
  split; [reflexivity|]. split; [apply Hisa|]. split.
  - intros Habs. split; [now apply replace_absent|].
    intros Hin. split.
    + intros E. rewrite E in Habs. congruence.
    + rewrite Hisa, Hin. reflexivity.
  - reflexivity.
Qed.

End EditApplier.

(** ** Applicability of a suggestion with an empty target *)

Section Applicability.

Local Open Scope string_scope.

(** While a non-empty target is absent from the essay, the suggestion is
    reported applied and a rendered apply button is disabled. *)
Lemma absent_target_disabled (essay target : string) (replacement : option string) :
  target <> "" ->
  Js.includes essay target = false ->
  isApplied essay (Some target) = true
  /\ forall b, applyButton essay (Some target) replacement = Some b ->
               disabled b = true /\ label b = Applied.
Proof.
  intros Hne Habs.
  assert (Ha : isApplied essay (Some target) = true).
  { unfold isApplied. rewrite Habs. destruct target; [congruence | reflexivity]. }
  split; [exact Ha|]. intros b. unfold applyButton. rewrite Ha.
  destruct (Js.truthy (Some target) && Js.truthy replacement); [|discriminate].
  intros [= <-]. split; reflexivity.
Qed.

(** C9 (empty-target guard).  Whatever the essay, a prioritized suggestion,
    a tip or a vocabulary item whose target is the empty string is never
    reported applied (resolved), and its apply action is never offered: no
    apply button is rendered for the suggestion and the tip, and the
    vocabulary card is not actionable (it has the inert look, is disabled,
    shows no apply badge, and its click handler changes nothing). *)
Theorem empty_target_informational (essay : string)
    (item : PrioritizedSuggestion.t) (tip : Tip.t)
    (word : VocabularyEnrichment.t) :
  PrioritizedSuggestion.apply_to_text item = Some "" ->
  Tip.apply_to_text tip = Some "" ->
  VocabularyEnrichment.target_text word = Some "" ->
  (isApplied essay (PrioritizedSuggestion.apply_to_text item) = false
   /\ suggestionButton essay item = None)
  /\ (isApplied essay (Tip.apply_to_text tip) = false
      /\ tipButton essay tip = None)
  /\ (isApplied essay (VocabularyEnrichment.target_text word) = false
      /\ canApply (VocabularyEnrichment.target_text word)
           (VocabularyEnrichment.replacement_text word) = false
      /\ enrichmentCardLook essay word = InertCard
      /\ enrichmentCardDisabled essay word = true
      /\ enrichmentBadge essay word = None
      /\ forall shiftKey s, enrichmentCardClick word shiftKey s = s).
Proof.
  intros Hitem Htip Hword.
  unfold suggestionButton, tipButton, enrichmentCardLook,
    enrichmentCardDisabled, enrichmentBadge, enrichmentCardClick.
  rewrite Hitem, Htip, Hword.
  repeat split.
  intros shiftKey s. now destruct (VocabularyEnrichment.replacement_text word).
Qed.

End Applicability.

(** ** A failed analysis *)

Section Analysis.

Local Open Scope string_scope.

Lemma react_frame (e : Event) (s s' : State) :
  react e s = Some s' ->
  result s' = result s /\ loading s' = loading s /\ error s' = error s.
Proof.
  destruct e as [x|orig repl shift| |]; cbn [react].
  - intros [= <-]. apply updateEssay_result.
  - intros [= <-]. apply applyFix_updateEssay.
  - unfold handleUndo. destruct (0 <? historyIndex s)%Z; [|now intros [= <-]].
    destruct (Js.get _ _); [|discriminate]. now intros [= <-].
  - unfold handleRedo.
    destruct (historyIndex s <? _)%Z; [|now intros [= <-]].
    destruct (Js.get _ _); [|discriminate]. now intros [= <-].
Qed.

Lemma run_frame (es : list Event) (s s' : State) :
  run es s = Some s' ->
  result s' = result s /\ loading s' = loading s /\ error s' = error s.
Proof.
  revert s. induction es as [|e es IH]; intros s; cbn [run].
  - now intros [= <-].
  - destruct (react e s) as [s1|] eqn:E; [|discriminate].
    intros H. apply IH in H. apply react_frame in E.
    destruct H as (-> & -> & ->). exact E.
Qed.

(** C2 (failed analysis), as the code has it.  For every well-formed state
    in which a result is installed, if an analysis request is sent and
    fails (the fetch is rejected, the status is not a success, or the body
    is not JSON), then, whatever document events happen while the request
    is in flight, after the failure the loading flag is cleared, no new
    result is installed and the generic error message is set; the result
    that was installed before is no longer installed: sending the request
    discarded it. *)
Theorem failed_analysis (s : State) (r : FeedbackData) (o : FetchOutcome)
    (during : list Event) :
  wellFormed s ->
  result s = Some r ->
  requestSent s = true ->
  failed o = true ->
  exists s',
    handleAnalyze o during s = Some s'
    /\ loading s' = false
    /\ result s' = None
    /\ error s' = "Something went wrong. Please try again.".
Proof.
  intros Hw _ Hsent Hfail. unfold handleAnalyze. rewrite Hsent. cbn [negb].
  assert (Hb : handleAnalyze_begin s = setResult None (setLoading true (setError "" s)))
    by (unfold handleAnalyze_begin; now rewrite Hsent).
  assert (Hw' : wellFormed (handleAnalyze_begin s)) by (rewrite Hb; exact Hw).
  destruct (run_wellFormed during _ Hw') as (s1 & Hr & _).
  rewrite Hr. eexists. split; [reflexivity|].
  apply run_frame in Hr as (Hres & _). rewrite Hb in Hres. cbn in Hres.
  destruct o; try discriminate; cbn; auto.
Qed.

End Analysis.

(** ** Undo and redo are inverse to each other *)

Section RoundTrips.

Lemma undo_redo_aux (s : State) :
  consistent s ->
  (0 < historyIndex s)%Z ->
  exists s1, handleUndo s = Some s1
             /\ historyIndex s1 = (historyIndex s - 1)%Z
             /\ Js.get (history s) (historyIndex s1) = Some (essay s1)
             /\ history s1 = history s
             /\ handleRedo s1 = Some s.
Proof.
  intros [Hr Hg] H0.
  destruct (handleUndo_back s) as (snap & Hsnap & Hu); [lia|].
  eexists. split; [exact Hu|]. split; [reflexivity|].
  split; [exact Hsnap|]. split; [reflexivity|].
  destruct (handleRedo_forward (setEssay snap (setHistoryIndex (historyIndex s - 1) s)))
    as (snap' & Hsnap' & ->); [cbn; lia|].
  cbn in Hsnap' |- *.
  replace (historyIndex s - 1 + 1)%Z with (historyIndex s) in * by lia.
  rewrite Hg in Hsnap'. injection Hsnap' as <-.
  f_equal. now destruct s.
Qed.

Lemma redo_undo_aux (s : State) :
  consistent s ->
  (historyIndex s < Z.of_nat (List.length (history s)) - 1)%Z ->
  exists s1, handleRedo s = Some s1
             /\ historyIndex s1 = (historyIndex s + 1)%Z
             /\ history s1 = history s
             /\ consistent s1
             /\ handleUndo s1 = Some s.
Proof.
  intros [Hr Hg] H0.
  destruct (handleRedo_forward s) as (snap & Hsnap & Hu); [lia|].
  eexists. split; [exact Hu|]. split; [reflexivity|]. split; [reflexivity|].
  split; [split; cbn; [lia | exact Hsnap]|].
  destruct (handleUndo_back (setEssay snap (setHistoryIndex (historyIndex s + 1) s)))
    as (snap' & Hsnap' & ->); [cbn; lia|].
  cbn in Hsnap' |- *.
  replace (historyIndex s + 1 - 1)%Z with (historyIndex s) in * by lia.
  rewrite Hg in Hsnap'. injection Hsnap' as <-.
  f_equal. now destruct s.
Qed.

Lemma run_app (es1 es2 : list Event) (s : State) :
  run (es1 ++ es2) s
  = match run es1 s with Some s1 => run es2 s1 | None => None end.
Proof.
  revert s. induction es1 as [|e es1 IH]; intros s; [reflexivity|].
  cbn [app run]. destruct (react e s); [apply IH | reflexivity].
Qed.

Lemma repeat_snoc {A : Type} (x : A) (n : nat) :
  repeat x (S n) = repeat x n ++ [x].
Proof. induction n as [|n IH]; [reflexivity|]. cbn [repeat app] in *. now rewrite <- IH. Qed.

(** X1.  In a consistent state, [k] undos (with [k] at most the cursor)
    followed by [k] redos give the very same state back. *)
Theorem undos_then_redos (k : nat) (s : State) :
  consistent s ->
  (Z.of_nat k <= historyIndex s)%Z ->
  run (repeat Undo k ++ repeat Redo k) s = Some s.
Proof.
  revert s. induction k as [|k IH]; intros s Hc Hk; [reflexivity|].
  destruct (undo_redo_aux s Hc) as (s1 & Hu & Hi & Hg & Hh & Hredo); [lia|].
  assert (Hc1 : consistent s1).
  { destruct Hc as [Hr _]. split; [rewrite Hh; lia | now rewrite Hh]. }
  rewrite (repeat_snoc Redo). cbn [repeat app run react]. rewrite Hu.
  rewrite app_assoc, run_app, IH by (auto; lia).
  cbn [run react]. now rewrite Hredo.
Qed.

(** X2.  In a consistent state, [k] redos (with at least [k] snapshots
    after the cursor) followed by [k] undos give the very same state
    back. *)
Theorem redos_then_undos (k : nat) (s : State) :
  consistent s ->
  (historyIndex s + Z.of_nat k <= Z.of_nat (List.length (history s)) - 1)%Z ->
  run (repeat Redo k ++ repeat Undo k) s = Some s.
Proof.
  revert s. induction k as [|k IH]; intros s Hc Hk; [reflexivity|].
  destruct (redo_undo_aux s Hc) as (s1 & Hr & Hi & Hh & Hc1 & Hundo); [lia|].
  rewrite (repeat_snoc Undo). cbn [repeat app run react]. rewrite Hr.
  rewrite app_assoc, run_app, IH by (auto; rewrite Hh; lia).
  cbn [run react]. now rewrite Hundo.
Qed.

Lemma updateEssay_consistent_fields (x : string) (o : option string) (s : State) :
  consistent s ->
  history (updateEssay x o s)
  = firstn (Z.to_nat (historyIndex s + 1)) (history s) ++ [x]
  /\ historyIndex (updateEssay x o s) = (historyIndex s + 1)%Z
  /\ Js.get (history (updateEssay x o s)) (historyIndex s) = Some (essay s).
Proof.
  intros [Hr Hg].
  assert (Hh : history (updateEssay x o s)
               = firstn (Z.to_nat (historyIndex s + 1)) (history s) ++ [x])
    by (rewrite updateEssay_history, slice0_firstn by lia; reflexivity).
  split; [exact Hh|]. split.
  - rewrite updateEssay_historyIndex, Hh, length_app, length_firstn.
    cbn [List.length]. lia.
  - rewrite Hh. apply get_Some in Hg as [_ Hg]. apply get_Some. split; [lia|].
    rewrite nth_error_app1 by (rewrite length_firstn; lia).
    rewrite nth_error_firstn.
    replace (Nat.ltb (Z.to_nat (historyIndex s)) (Z.to_nat (historyIndex s + 1))) with true
      by (symmetry; apply Nat.ltb_lt; lia).
    exact Hg.
Qed.

(** X3.  In a consistent state, an edit followed by undo brings back the
    text and the cursor of before the edit, and a redo after that gives
    exactly the state the edit had produced. *)
Theorem edit_then_undo (s : State) (x : string) (o : option string) :
  consistent s ->
  exists s1, handleUndo (updateEssay x o s) = Some s1
             /\ essay s1 = essay s
             /\ historyIndex s1 = historyIndex s
             /\ handleRedo s1 = Some (updateEssay x o s).
Proof.
  intros Hc. pose proof Hc as [Hr Hg].
  destruct (updateEssay_consistent_fields x o s Hc) as (Hh & Hi & Hprev).
  pose proof (updateEssay_consistent x o s) as Hc'.
  destruct (undo_redo_aux (updateEssay x o s)) as (s1 & Hu & Hi1 & He1 & _ & Hredo).
  - exact Hc'.
  - lia.
  - exists s1. split; [exact Hu|]. rewrite Hi in Hi1.
    replace (historyIndex s + 1 - 1)%Z with (historyIndex s) in Hi1 by lia.
    rewrite Hi1 in He1. rewrite Hprev in He1. injection He1 as He1.
    auto.
Qed.

Lemma run_edits (xs : list string) (s : State) :
  consistent s ->
  exists s1, run (map SetText xs) s = Some s1
             /\ consistent s1
             /\ historyIndex s1 = (historyIndex s + Z.of_nat (List.length xs))%Z
             /\ firstn (Z.to_nat (historyIndex s + 1)) (history s1)
                = firstn (Z.to_nat (historyIndex s + 1)) (history s).
Proof.
  revert s. induction xs as [|x xs IH]; intros s Hc.
  - exists s. cbn. repeat split; try apply Hc. lia.
  - pose proof Hc as [Hr Hg].
    destruct (updateEssay_consistent_fields x None s Hc) as (Hh & Hi & _).
    destruct (IH (updateEssay x None s) (updateEssay_consistent x None s))
      as (s1 & Hrun & Hc1 & Hi1 & Hpre).
    exists s1. cbn [map run react]. split; [exact Hrun|]. split; [exact Hc1|].
    split; [cbn [List.length]; lia|].
    apply (f_equal (firstn (Z.to_nat (historyIndex s + 1)))) in Hpre.
    rewrite !firstn_firstn, Hi, Hh in Hpre.
    rewrite Nat.min_l in Hpre by lia.
    rewrite firstn_app, length_firstn in Hpre.
    rewrite Nat.min_l in Hpre by lia.
    rewrite Nat.sub_diag, firstn_firstn, Nat.min_id in Hpre.
    cbn [firstn] in Hpre. rewrite app_nil_r in Hpre. exact Hpre.
Qed.

Lemma run_undos (k : nat) (s : State) :
  consistent s ->
  (Z.of_nat k <= historyIndex s)%Z ->
  exists s2, run (repeat Undo k) s = Some s2
             /\ consistent s2
             /\ historyIndex s2 = (historyIndex s - Z.of_nat k)%Z
             /\ history s2 = history s.
Proof.
  revert s. induction k as [|k IH]; intros s Hc Hk.
  - exists s. cbn. repeat split; try apply Hc. lia.
  - destruct (undo_redo_aux s Hc) as (s1 & Hu & Hi & Hg & Hh & _); [lia|].
    assert (Hc1 : consistent s1).
    { destruct Hc as [Hr _]. split; [rewrite Hh; lia | now rewrite Hh]. }
    destruct (IH s1 Hc1) as (s2 & Hrun & Hc2 & Hi2 & Hh2); [lia|].
    exists s2. cbn [repeat run react]. rewrite Hu. split; [exact Hrun|].
    split; [exact Hc2|]. split; [lia | congruence].
Qed.

(** X4.  In a consistent state, any number of edits followed by as many
    undos brings back the text and the cursor of before the edits. *)
Theorem edits_then_undos (xs : list string) (s : State) :
  consistent s ->
  exists s', run (map SetText xs ++ repeat Undo (List.length xs)) s = Some s'
             /\ essay s' = essay s
             /\ historyIndex s' = historyIndex s.
Proof.
  intros Hc. pose proof Hc as [Hr Hg].
  destruct (run_edits xs s Hc) as (s1 & Hrun & Hc1 & Hi1 & Hpre).
  destruct (run_undos (List.length xs) s1 Hc1) as (s2 & Hrun2 & Hc2 & Hi2 & Hh2);
    [lia|].
  exists s2. rewrite run_app, Hrun. split; [exact Hrun2|].
  assert (Hi : historyIndex s2 = historyIndex s) by lia.
  split; [|exact Hi].
  destruct Hc2 as [_ Hg2]. rewrite Hi, Hh2 in Hg2.
  apply get_Some in Hg2 as [_ Hg2]. apply get_Some in Hg as [_ Hg].
  assert (E : nth_error (firstn (Z.to_nat (historyIndex s + 1)) (history s1))
                (Z.to_nat (historyIndex s)) = Some (essay s2)).
  { rewrite nth_error_firstn.
    replace (Nat.ltb (Z.to_nat (historyIndex s)) (Z.to_nat (historyIndex s + 1)))
      with true by (symmetry; apply Nat.ltb_lt; lia).
    exact Hg2. }
  rewrite Hpre, nth_error_firstn in E.
  replace (Nat.ltb (Z.to_nat (historyIndex s)) (Z.to_nat (historyIndex s + 1)))
    with true in E by (symmetry; apply Nat.ltb_lt; lia).
  congruence.
Qed.

(** X5.  On a well-formed state, the undo button is disabled exactly when
    [handleUndo] would change nothing, and the redo button exactly when
    [handleRedo] would change nothing. *)
Theorem history_buttons (s : State) :
  wellFormed s ->
  (undoDisabled s = true <-> handleUndo s = Some s)
  /\ (redoDisabled s = true <-> handleRedo s = Some s).
Proof.
  intros Hw. unfold undoDisabled, redoDisabled. split; split.
  - intros H. apply handleUndo_at_start. now apply Z.leb_le.
  - intros H. apply Z.leb_le.
    destruct (Z.le_gt_cases (historyIndex s) 0) as [H0|H0]; [exact H0|].
    destruct Hw as [[_ Hp]|[Hr _]]; [lia|].
    destruct (handleUndo_back s) as (snap & _ & Hu); [lia|].
    rewrite Hu in H. injection H as H.
    apply (f_equal historyIndex) in H. cbn in H. lia.
  - intros H. apply handleRedo_at_end. apply Z.geb_le in H. lia.
  - intros H. apply Z.geb_le.
    destruct (Z.le_gt_cases (Z.of_nat (List.length (history s)) - 1) (historyIndex s))
      as [H0|H0]; [exact H0|].
    assert (Hr : (-1 <= historyIndex s)%Z)
      by (destruct Hw as [[_ Hp]|[Hr _]]; lia).
    destruct (handleRedo_forward s) as (snap & _ & Hu); [lia|].
    rewrite Hu in H. injection H as H.
    apply (f_equal historyIndex) in H. cbn in H. lia.
Qed.

Lemma handleKeyDown_cases (e : KeyboardEvent) (s : State) :
  fst (handleKeyDown e s) = handleUndo s
  \/ fst (handleKeyDown e s) = handleRedo s
  \/ fst (handleKeyDown e s) = Some s.
Proof.
  unfold handleKeyDown. cbn [fst].
  destruct ((ctrlKey e || metaKey e) && String.eqb (key e) "z"); [now left|].
  destruct ((ctrlKey e || metaKey e) && String.eqb (key e) "y"); auto.
Qed.

(** X6.  Whatever keys are pressed in a well-formed state, the keyboard
    handler never reads outside the history and never changes the history
    sequence, the analysis result or the last-changed record: it only
    moves the cursor, and the state stays well-formed. *)
Theorem keyboard_keeps_history (es : list KeyboardEvent) (s : State) :
  wellFormed s ->
  exists s', runKeys es s = Some s'
             /\ wellFormed s'
             /\ history s' = history s
             /\ result s' = result s
             /\ lastModifiedText s' = lastModifiedText s.
Proof.
  revert s. induction es as [|e es IH]; intros s Hw.
  - exists s. auto.
  - assert (H1 : exists s1, fst (handleKeyDown e s) = Some s1
                   /\ wellFormed s1 /\ history s1 = history s
                   /\ result s1 = result s
                   /\ lastModifiedText s1 = lastModifiedText s).
    { destruct (handleKeyDown_cases e s) as [->|[->| ->]].
      - destruct (handleUndo_wellFormed s Hw) as (s1 & Hu & Hh & Hp & Hc).
        exists s1. split; [exact Hu|].
        split; [destruct Hw as [Hw|Hw]; [left; now rewrite (Hp Hw) | right; auto]|].
        split; [exact Hh|].
        unfold handleUndo in Hu. destruct (0 <? historyIndex s)%Z;
          [destruct (Js.get _ _); [|discriminate]|]; injection Hu as <-; auto.
      - destruct (handleRedo_wellFormed s Hw) as (s1 & Hu & Hh & Hp & Hc).
        exists s1. split; [exact Hu|].
        split; [destruct Hw as [Hw|Hw]; [left; now rewrite (Hp Hw) | right; auto]|].
        split; [exact Hh|].
        unfold handleRedo in Hu. destruct (historyIndex s <? _)%Z;
          [destruct (Js.get _ _); [|discriminate]|]; injection Hu as <-; auto.
      - exists s. auto. }
    destruct H1 as (s1 & He & Hw1 & Hh1 & Hr1 & Hl1).
    destruct (IH s1 Hw1) as (s' & Hrun & Hw' & Hh' & Hr' & Hl').
    exists s'. cbn [runKeys]. rewrite He. split; [exact Hrun|].
    split; [exact Hw'|]. repeat split; congruence.
Qed.

End RoundTrips.

(** ** The word counter *)

(** The number of maximal runs of code units that are not white space;
    [inWord] tells whether the text before belongs to such a run. *)
Fixpoint countWords (inWord : bool) (s : string) : nat :=
  match s with
  | EmptyString => 0
  | String c s' =>
      if Js.isWhiteSpace c then countWords false s'
      else (if inWord then 0 else 1) + countWords true s'
  end.

(** No white space in [w]. *)
Fixpoint spaceFree (w : string) : bool :=
  match w with
  | EmptyString => true
  | String c w' => negb (Js.isWhiteSpace c) && spaceFree w'
  end.

Section WordCounter.

Local Open Scope string_scope.

Lemma countWords_trimStart (s : string) :
  countWords false (Js.trimStart s) = countWords false s.
Proof.
  induction s as [|c s IH]; [reflexivity|].
  cbn [Js.trimStart]. destruct (Js.isWhiteSpace c) eqn:E.
  - cbn [countWords]. now rewrite E.
  - reflexivity.
Qed.

Lemma nonEmpty_count (part : string) :
  List.length (nonEmptyWords [part]) = if String.eqb part "" then 0 else 1.
Proof. now destruct part. Qed.

Lemma wordCount_loop (part rest : string) :
  List.length (nonEmptyWords (splitSpacesLoop part rest))
  = (if String.eqb part "" then 0 else 1)
    + countWords (negb (String.eqb part "")) rest.
Proof.
  funelim (splitSpacesLoop part rest).
  - rewrite nonEmpty_count. cbn [countWords]. lia.
  - cbn [countWords]. rewrite Heq.
    unfold nonEmptyWords in *. cbn [filter].
    destruct part as [|a part];
      [change (Nat.ltb 0 (String.length "")) with false
      |change (Nat.ltb 0 (String.length (String a part))) with true];
      cbn [List.length String.eqb]; rewrite H; cbn [String.eqb negb];
      rewrite countWords_trimStart; lia.
  - cbn [countWords]. rewrite Heq. rewrite H.
    assert (E : String.eqb (part ++ String c "") "" = false) by now destruct part.
    rewrite E. cbn [negb]. destruct (String.eqb part ""); cbn [negb]; lia.
Qed.

Lemma wordCount_countWords (s : string) : wordCount s = countWords false s.
Proof.
  unfold wordCount, splitSpaces. destruct s as [|c s]; [reflexivity|].
  now rewrite wordCount_loop.
Qed.

Lemma trimStart_cases (s : string) :
  Js.trimStart s = ""
  \/ exists c t, Js.trimStart s = String c t /\ Js.isWhiteSpace c = false.
Proof.
  induction s as [|c s IH]; [now left|].
  cbn [Js.trimStart]. destruct (Js.isWhiteSpace c) eqn:E; [exact IH|].
  right. now exists c, s.
Qed.

Lemma trim_empty (s : string) : Js.trim s = "" <-> Js.trimStart s = "".
Proof.
  unfold Js.trim. destruct (trimStart_cases s) as [->|(c & t & -> & Hc)].
  - tauto.
  - cbn [Js.trimEnd]. rewrite Hc. split; [|discriminate].
    now destruct (Js.trimEnd t).
Qed.

Lemma trimStart_empty (s : string) :
  Js.trimStart s = "" <-> countWords false s = 0.
Proof.
  induction s as [|c s IH]; [tauto|].
  cbn [Js.trimStart countWords]. destruct (Js.isWhiteSpace c); [exact IH|].
  split; [discriminate | lia].
Qed.

Lemma requestSent_wordCount (s : State) :
  requestSent s = false <-> wordCount (essay s) = 0.
Proof.
  rewrite wordCount_countWords, <- trimStart_empty, <- trim_empty.
  unfold requestSent. destruct (Js.trim (essay s)); cbn; split; congruence.
Qed.

(** X7.  The page asks for an analysis exactly when the word counter under
    the essay does not show zero: the test [!essay.trim()] of
    [handleAnalyze] holds if and only if the essay has no word. *)
Theorem analysis_needs_a_word (s : State) :
  (requestSent s = false <-> wordCount (essay s) = 0)
  /\ (requestSent s = true <-> 0 < wordCount (essay s)).
Proof.
  pose proof (requestSent_wordCount s) as H. split; [exact H|].
  destruct (requestSent s); split; intros H'; try reflexivity; try discriminate.
  - destruct (wordCount (essay s)); [|lia].
    destruct H as [_ H]. now specialize (H eq_refl).
  - destruct H as [H _]. rewrite (H eq_refl) in H'. lia.
Qed.

Lemma countWords_app_space (a b : string) (c : ascii) (inWord : bool) :
  Js.isWhiteSpace c = true ->
  countWords inWord (a ++ String c b) = countWords inWord a + countWords false b.
Proof.
  intros Hc. revert inWord. induction a as [|x a IH]; intros inWord.
  - cbn [append countWords]. now rewrite Hc.
  - cbn [append countWords]. destruct (Js.isWhiteSpace x); rewrite IH; lia.
Qed.

(** X8.  The word counter is additive over white space: for two texts
    joined by a white-space code unit, the count is the sum of the two
    counts. *)
Theorem wordCount_additive (a b : string) (c : ascii) :
  Js.isWhiteSpace c = true ->
  wordCount (a ++ String c b) = wordCount a + wordCount b.
Proof.
  intros Hc. rewrite !wordCount_countWords. now apply countWords_app_space.
Qed.

Lemma splitSpacesLoop_space (part : string) (c : ascii) (rest : string) :
  Js.isWhiteSpace c = true ->
  splitSpacesLoop part (String c rest)
  = part :: splitSpacesLoop "" (Js.trimStart rest).
Proof. intros H. simp splitSpacesLoop. now rewrite H. Qed.

Lemma splitSpacesLoop_char (part : string) (c : ascii) (rest : string) :
  Js.isWhiteSpace c = false ->
  splitSpacesLoop part (String c rest)
  = splitSpacesLoop (part ++ String c "") rest.
Proof. intros H. simp splitSpacesLoop. now rewrite H. Qed.

Lemma splitSpacesLoop_word (part w rest : string) :
  spaceFree w = true ->
  splitSpacesLoop part (w ++ rest) = splitSpacesLoop (part ++ w) rest.
Proof.
  revert part. induction w as [|c w IH]; intros part Hw.
  - cbn [append]. now rewrite append_empty_r.
  - cbn [spaceFree] in Hw. apply andb_prop in Hw as [Hc Hw].
    apply negb_true_iff in Hc.
    cbn [append]. rewrite splitSpacesLoop_char by exact Hc.
    rewrite IH by exact Hw. now rewrite append_assoc.
Qed.

Lemma trimStart_word (w rest : string) :
  spaceFree w = true -> w <> "" -> Js.trimStart (w ++ rest) = w ++ rest.
Proof.
  destruct w as [|c w]; [congruence|]. cbn [spaceFree]. intros Hw _.
  apply andb_prop in Hw as [Hc _]. apply negb_true_iff in Hc.
  cbn [append Js.trimStart]. now rewrite Hc.
Qed.

Lemma join_words_start (ws : list string) :
  Forall (fun w => spaceFree w = true /\ w <> "") ws ->
  Js.trimStart (Js.join " " ws) = Js.join " " ws.
Proof.
  destruct ws as [|w ws]; [reflexivity|]. intros H. inversion H as [|? ? [Hw Hne] _]; subst.
  destruct ws as [|w' ws].
  - cbn [Js.join]. rewrite <- (append_empty_r w). now apply trimStart_word.
  - cbn [Js.join]. now apply trimStart_word.
Qed.

Lemma words_join (ws : list string) :
  Forall (fun w => spaceFree w = true /\ w <> "") ws ->
  nonEmptyWords (splitSpacesLoop "" (Js.join " " ws)) = ws.
Proof.
  induction ws as [|w ws IH]; intros H; [reflexivity|].
  inversion H as [|? ? [Hw Hne] Hws]; subst.
  assert (Hkeep : Nat.ltb 0 (String.length w) = true)
    by (destruct w; [congruence | reflexivity]).
  destruct ws as [|w' ws].
  - cbn [Js.join]. rewrite <- (append_empty_r w) at 1.
    rewrite splitSpacesLoop_word by exact Hw. simp splitSpacesLoop.
    unfold nonEmptyWords. cbn [filter append]. now rewrite Hkeep.
  - change (Js.join " " (w :: w' :: ws))
      with (w ++ String " " (Js.join " " (w' :: ws))).
    rewrite splitSpacesLoop_word by exact Hw.
    rewrite splitSpacesLoop_space by reflexivity.
    rewrite join_words_start by exact Hws.
    unfold nonEmptyWords in *. cbn [filter append]. rewrite Hkeep.
    f_equal. now apply IH.
Qed.

(** X9.  Splitting on white space and dropping the empty parts gives back
    the words of a text made of non-empty words without white space joined
    by single spaces; so the counter shows their number. *)
Theorem words_of_joined (ws : list string) :
  Forall (fun w => spaceFree w = true /\ w <> "") ws ->
  nonEmptyWords (splitSpaces (Js.join " " ws)) = ws
  /\ wordCount (Js.join " " ws) = List.length ws.
Proof.
  intros H.
  assert (E : nonEmptyWords (splitSpaces (Js.join " " ws)) = ws).
  { unfold splitSpaces. destruct (Js.join " " ws) eqn:J.
    - destruct ws as [|w ws]; [reflexivity|].
      inversion H as [|? ? [Hw Hne] Hws]; subst.
      destruct ws; cbn [Js.join] in J; [congruence|].
      destruct w; [congruence | discriminate].
    - rewrite <- J. now apply words_join. }
  split; [exact E|]. unfold wordCount. now rewrite E.
Qed.

End WordCounter.

(** ** The outcomes of an analysis *)

Section AnalysisOutcomes.

Local Open Scope string_scope.

(** The cells [handleAnalyze] writes before the request do not matter to
    the document events. *)
Lemma react_begin (e : Event) (r : option FeedbackData) (l : bool) (m : string)
    (s : State) :
  react e (setResult r (setLoading l (setError m s)))
  = option_map (fun s' => setResult r (setLoading l (setError m s'))) (react e s).
Proof.
  destruct e as [x|orig repl shift| |]; cbn [react option_map].
  - reflexivity.
  - unfold applyFix. cbn [essay selectedCriterion setResult setLoading setError].
    destruct shift, (selectedCriterion s); try reflexivity;
      unfold updateEssay; destruct (Js.truthy (Some repl)); reflexivity.
  - unfold handleUndo. cbn [historyIndex history setResult setLoading setError].
    destruct (0 <? historyIndex s)%Z; [|reflexivity].
    now destruct (Js.get _ _).
  - unfold handleRedo. cbn [historyIndex history setResult setLoading setError].
    destruct (historyIndex s <? _)%Z; [|reflexivity].
    now destruct (Js.get _ _).
Qed.

Lemma run_begin (es : list Event) (r : option FeedbackData) (l : bool) (m : string)
    (s : State) :
  run es (setResult r (setLoading l (setError m s)))
  = option_map (fun s' => setResult r (setLoading l (setError m s'))) (run es s).
Proof.
  revert s. induction es as [|e es IH]; intros s; [reflexivity|].
  cbn [run]. rewrite react_begin. destruct (react e s) as [s1|]; [apply IH | reflexivity].
Qed.

(** X10.  When the essay has no word, [handleAnalyze] sends no request:
    whatever the network would answer and whatever happens meanwhile, the
    only change is the message "Please enter your essay."; the result that
    is installed stays, and the loading flag is not touched. *)
Theorem analysis_of_blank_essay (s : State) (o : FetchOutcome)
    (during : list Event) :
  wordCount (essay s) = 0 ->
  handleAnalyze o during s = Some (setError "Please enter your essay." s).
Proof.
  intros H. apply requestSent_wordCount in H.
  unfold handleAnalyze, handleAnalyze_begin. now rewrite H.
Qed.

(** X11.  A request that succeeds installs the data it brings in place of
    whatever result was there, clears the loading flag and the error
    message and switches to the review; the essay, the history, the cursor
    and the last-changed record are those the user's events made meanwhile,
    as if no analysis had run. *)
Theorem successful_analysis (s : State) (data : FeedbackData)
    (during : list Event) :
  wellFormed s ->
  requestSent s = true ->
  exists s1 s',
    run during s = Some s1
    /\ handleAnalyze (Success data) during s = Some s'
    /\ result s' = Some data
    /\ loading s' = false
    /\ error s' = ""
    /\ viewMode s' = review
    /\ essay s' = essay s1
    /\ history s' = history s1
    /\ historyIndex s' = historyIndex s1
    /\ lastModifiedText s' = lastModifiedText s1.
Proof.
  intros Hw Hsent.
  destruct (run_wellFormed during s Hw) as (s1 & Hrun & _).
  exists s1. unfold handleAnalyze, handleAnalyze_begin. rewrite Hsent. cbn [negb].
  rewrite run_begin, Hrun. cbn [option_map].
  eexists. split; [reflexivity|]. split; [reflexivity|]. repeat split.
Qed.

(** X12.  While a request is in flight, whatever the user does with the
    document, the loading flag stays set (the Analyze button is disabled),
    no result is installed, and the review shows the bare essay. *)
Theorem analysis_in_flight (s : State) (during : list Event) :
  wellFormed s ->
  requestSent s = true ->
  exists s1,
    run during (handleAnalyze_begin s) = Some s1
    /\ loading s1 = true
    /\ analyzeDisabled s1 = true
    /\ result s1 = None
    /\ renderAnnotatedEssay s1 = Bare (essay s1).
Proof.
  intros Hw Hsent. unfold handleAnalyze_begin. rewrite Hsent. cbn [negb].
  destruct (run_wellFormed during s Hw) as (s1 & Hrun & _).
  rewrite run_begin, Hrun. cbn [option_map]. eexists. split; [reflexivity|].
  repeat split.
Qed.

End AnalysisOutcomes.

(** ** More facts about [split] and [includes] *)

Section SplitFacts.

Local Open Scope string_scope.

Lemma length_append (a b : string) :
  String.length (a ++ b) = String.length a + String.length b.
Proof. induction a as [|x a IH]; simpl; [reflexivity | now rewrite IH]. Qed.

Lemma splitLoop_unfold (s : string) (c : ascii) (r : string) (i : nat) :
  Js.splitLoop s c r i
  = match Js.StringIndexOf s (String c r) i with
    | None => [Js.substringFrom s i]
    | Some j =>
        Js.substring s i j :: Js.splitLoop s c r (j + String.length (String c r))
    end.
Proof.
  funelim (Js.splitLoop s c r i).
  - now rewrite Hj.
  - now rewrite e.
Qed.

(** Searching from [i] is searching the text from [i] on. *)
Lemma StringIndexOf_shift (s : string) (c : ascii) (r : string) (i : nat) :
  Js.StringIndexOf s (String c r) i
  = option_map (Nat.add i) (Js.StringIndexOf (Js.substringFrom s i) (String c r) 0).
Proof.
  revert s. induction i as [|i IH]; intros s.
  - rewrite substringFrom_0. now destruct (Js.StringIndexOf s (String c r) 0).
  - destruct s as [|b s]; [reflexivity|].
    cbn [Js.StringIndexOf Js.substringFrom]. rewrite IH.
    now destruct (Js.StringIndexOf (Js.substringFrom s i) (String c r) 0).
Qed.

Lemma substring_shift (s : string) (i j : nat) :
  Js.substring s i (i + j) = Js.substring (Js.substringFrom s i) 0 j.
Proof.
  unfold Js.substring. replace (i + j - i) with j by lia. rewrite Nat.sub_0_r.
  revert s. induction i as [|i IH]; intros s.
  - now rewrite substringFrom_0.
  - destruct s as [|b s]; [now destruct j|]. cbn [Js.substringFrom]. rewrite <- IH.
    reflexivity.
Qed.

(** A text inside a text that does not contain [x] does not contain [x]. *)
Lemma includes_inside (t p x a b : string) :
  t = a ++ p ++ b -> Js.includes t x = false -> Js.includes p x = false.
Proof.
  intros Ht Hx. destruct (Js.includes p x) eqn:E; [|reflexivity].
  apply includes_true in E as (a' & b' & ->).
  assert (H : Js.includes t x = true).
  { apply includes_true. exists (a ++ a'), (b' ++ b).
    rewrite Ht, !append_assoc. reflexivity. }
  congruence.
Qed.

(** The text before the first occurrence holds no occurrence. *)
Lemma before_first_occurrence (t : string) (c : ascii) (r : string) (k : nat) :
  Js.StringIndexOf t (String c r) 0 = Some k ->
  Js.includes (Js.substring t 0 k) (String c r) = false.
Proof.
  intros E. destruct (Js.includes (Js.substring t 0 k) (String c r)) eqn:I;
    [|reflexivity].
  apply includes_true in I as (a & b & Hab).
  pose proof (StringIndexOf_cut _ _ _ _ E) as Hcut.
  pose proof (Js.StringIndexOf_range _ _ _ _ E) as Hrange.
  rewrite substringFrom_0 in Hcut.
  pose proof (substring_length t 0 k (Nat.le_0_l k) ltac:(lia)) as Hlen.
  rewrite Hab in Hcut, Hlen. rewrite !append_assoc in Hcut.
  pose proof (StringIndexOf_first _ _ _ E _ _ Hcut) as Hfirst.
  rewrite !length_append in Hlen. cbn [String.length] in Hlen. lia.
Qed.

Lemma absent_from (t : string) (c : ascii) (r : string) :
  Js.StringIndexOf t (String c r) 0 = None -> Js.includes t (String c r) = false.
Proof. unfold Js.includes. now intros ->. Qed.

(** No part of a split holds the separator. *)
Lemma splitLoop_parts_free (s : string) (c : ascii) (r : string) (i : nat) :
  Forall (fun part => Js.includes part (String c r) = false)
    (Js.splitLoop s c r i).
Proof.
  funelim (Js.splitLoop s c r i).
  - constructor; [|exact H].
    pose proof Hj as Hj'. rewrite StringIndexOf_shift in Hj'.
    destruct (Js.StringIndexOf (Js.substringFrom s i) (String c r) 0) as [k|] eqn:E;
      [|discriminate].
    injection Hj' as Hk. rewrite <- Hk, substring_shift.
    now apply before_first_occurrence.
  - constructor; [|constructor].
    pose proof e as e'. rewrite StringIndexOf_shift in e'.
    destruct (Js.StringIndexOf (Js.substringFrom s i) (String c r) 0) eqn:E;
      [discriminate|].
    now apply absent_from.
Qed.

Lemma split_parts_free (s separator : string) :
  separator <> "" ->
  Forall (fun part => Js.includes part separator = false) (Js.split s separator).
Proof.
  intros Hne. destruct separator as [|c r]; [congruence|].
  unfold Js.split. destruct s as [|b s].
  - constructor; [reflexivity | constructor].
  - apply splitLoop_parts_free.
Qed.

(** Without an occurrence of the separator there is one part, the string
    itself; with one there are at least two parts. *)
Lemma split_absent (s separator : string) :
  Js.includes s separator = false -> Js.split s separator = [s].
Proof.
  intros H. destruct separator as [|c r].
  - unfold Js.includes in H. now destruct s.
  - unfold Js.split. destruct s as [|b s]; [reflexivity|].
    rewrite splitLoop_unfold. unfold Js.includes in H.
    destruct (Js.StringIndexOf (String b s) (String c r) 0); [discriminate|].
    reflexivity.
Qed.

Lemma split_present (s separator : string) :
  separator <> "" -> Js.includes s separator = true ->
  exists part part' parts, Js.split s separator = part :: part' :: parts.
Proof.
  intros Hne H. destruct separator as [|c r]; [congruence|].
  unfold Js.split. destruct s as [|b s]; [discriminate|].
  rewrite splitLoop_unfold. unfold Js.includes in H.
  destruct (Js.StringIndexOf (String b s) (String c r) 0) as [j|]; [|discriminate].
  destruct (Js.splitLoop (String b s) c r (j + String.length (String c r))) eqn:E.
  - now apply splitLoop_nonempty in E.
  - eauto.
Qed.

(** Every part of a joined list lies inside the joined text. *)
Lemma join_part_inside (separator : string) (parts : list string) (part : string) :
  In part parts -> exists a b, Js.join separator parts = a ++ part ++ b.
Proof.
  induction parts as [|p parts IH]; [contradiction|].
  intros [->|Hin].
  - destruct parts as [|p' parts].
    + exists "", "". cbn [Js.join append]. now rewrite append_empty_r.
    + exists "", (separator ++ Js.join separator (p' :: parts)). reflexivity.
  - destruct parts as [|p' parts]; [contradiction|].
    destruct (IH Hin) as (a & b & E).
    exists (p ++ separator ++ a), b.
    change (Js.join separator (p :: p' :: parts))
      with (p ++ separator ++ Js.join separator (p' :: parts)).
    rewrite E, !append_assoc. reflexivity.
Qed.

Lemma split_part_inside (s separator part : string) :
  In part (Js.split s separator) -> exists a b, s = a ++ part ++ b.
Proof.
  intros Hin. destruct (join_part_inside separator _ _ Hin) as (a & b & E).
  rewrite join_split in E. eauto.
Qed.

End SplitFacts.

(** ** What the annotator highlights *)

Section Highlights.

Local Open Scope string_scope.

Lemma in_pushParts (span : nat -> Segment) (parts : list string) (i len : nat)
    (segment : Segment) :
  In segment (pushParts span parts i len) ->
  (exists part, segment = Text part /\ In part parts)
  \/ (exists k, segment = span k).
Proof.
  revert i. induction parts as [|part parts IH]; intros i; [contradiction|].
  cbn [pushParts]. intros [<-|Hin].
  - left. exists part. split; [reflexivity | now left].
  - apply in_app_or in Hin as [Hin|Hin].
    + destruct (Z.of_nat i <? Z.of_nat len - 1)%Z; [|contradiction].
      destruct Hin as [<-|[]]. right. now exists i.
    + destruct (IH _ Hin) as [(p & -> & Hp)|Hk]; [|now right].
      left. exists p. split; [reflexivity | now right].
Qed.

Lemma empty_free (c : ascii) (r : string) : Js.includes "" (String c r) = false.
Proof. reflexivity. Qed.

(** After the pass of a correction, no plain run holds its original. *)
Lemma annotateCorrection_frees (correction : Correction.t) (index : nat)
    (annotatedText : list Segment) (t : string) :
  Correction.original correction <> "" ->
  In (Text t) (annotateCorrection correction index annotatedText) ->
  Js.includes t (Correction.original correction) = false.
Proof.
  intros Hne Hin. unfold annotateCorrection in Hin.
  apply in_flat_map in Hin as (segment & _ & Hin).
  destruct segment as [t0| |]; try (destruct Hin as [Hin|[]]; discriminate).
  cbv zeta in Hin.
  destruct (Nat.ltb 1 _) eqn:Hlen.
  - apply in_pushParts in Hin as [(part & [= <-] & Hpart)|(k & Hk)]; [|discriminate].
    pose proof (split_parts_free t0 _ Hne) as Hfree.
    rewrite Forall_forall in Hfree. now apply Hfree.
  - destruct Hin as [[= <-]|[]].
    destruct (Js.includes t0 (Correction.original correction)) eqn:E; [|reflexivity].
    destruct (split_present t0 _ Hne E) as (p & p' & ps & Hs).
    rewrite Hs in Hlen. discriminate.
Qed.

(** A pass only cuts plain runs: what no plain run held before, none holds
    after. *)
Lemma annotateCorrection_keeps_free (x : string) (correction : Correction.t)
    (index : nat) (annotatedText : list Segment) :
  (forall t, In (Text t) annotatedText -> Js.includes t x = false) ->
  forall t, In (Text t) (annotateCorrection correction index annotatedText) ->
            Js.includes t x = false.
Proof.
  intros Hfree t Hin. unfold annotateCorrection in Hin.
  apply in_flat_map in Hin as (segment & Hseg & Hin).
  destruct segment as [t0| |]; try (destruct Hin as [Hin|[]]; discriminate).
  cbv zeta in Hin. destruct (Nat.ltb 1 _).
  - apply in_pushParts in Hin as [(part & [= <-] & Hpart)|(k & Hk)]; [|discriminate].
    destruct (split_part_inside _ _ _ Hpart) as (a & b & E).
    exact (includes_inside _ _ _ _ _ E (Hfree _ Hseg)).
  - destruct Hin as [[= <-]|[]]. now apply Hfree.
Qed.

Lemma annotateCorrections_keep_free (x : string) (cs : list Correction.t)
    (index : nat) (annotatedText : list Segment) :
  (forall t, In (Text t) annotatedText -> Js.includes t x = false) ->
  forall t, In (Text t) (annotateCorrections cs index annotatedText) ->
            Js.includes t x = false.
Proof.
  revert index annotatedText.
  induction cs as [|c cs IH]; intros index annotatedText Hfree; [exact Hfree|].
  cbn [annotateCorrections]. apply IH. now apply annotateCorrection_keeps_free.
Qed.

Lemma annotateCorrections_free (cs : list Correction.t) (index : nat)
    (annotatedText : list Segment) (correction : Correction.t) :
  In correction cs ->
  Correction.original correction <> "" ->
  forall t, In (Text t) (annotateCorrections cs index annotatedText) ->
            Js.includes t (Correction.original correction) = false.
Proof.
  revert index annotatedText.
  induction cs as [|c cs IH]; intros index annotatedText Hin Hne; [contradiction|].
  cbn [annotateCorrections]. destruct Hin as [->|Hin].
  - apply annotateCorrections_keep_free. intros t.
    now apply annotateCorrection_frees.
  - now apply IH.
Qed.

Lemma annotateModified_frees (lastModified : string)
    (annotatedText : list Segment) (t : string) :
  lastModified <> "" ->
  In (Text t) (annotateModified lastModified annotatedText) ->
  Js.includes t lastModified = false.
Proof.
  intros Hne Hin. unfold annotateModified in Hin.
  apply in_flat_map in Hin as (segment & _ & Hin).
  destruct segment as [t0| |]; try (destruct Hin as [Hin|[]]; discriminate).
  destruct (Js.includes t0 lastModified) eqn:E.
  - cbv zeta in Hin.
    apply in_pushParts in Hin as [(part & [= <-] & Hpart)|(k & Hk)]; [|discriminate].
    pose proof (split_parts_free t0 _ Hne) as Hfree.
    rewrite Forall_forall in Hfree. now apply Hfree.
  - now destruct Hin as [[= <-]|[]].
Qed.

Lemma annotateModified_keeps_free (x lastModified : string)
    (annotatedText : list Segment) :
  (forall t, In (Text t) annotatedText -> Js.includes t x = false) ->
  forall t, In (Text t) (annotateModified lastModified annotatedText) ->
            Js.includes t x = false.
Proof.
  intros Hfree t Hin. unfold annotateModified in Hin.
  apply in_flat_map in Hin as (segment & Hseg & Hin).
  destruct segment as [t0| |]; try (destruct Hin as [Hin|[]]; discriminate).
  destruct (Js.includes t0 lastModified).
  - cbv zeta in Hin.
    apply in_pushParts in Hin as [(part & [= <-] & Hpart)|(k & Hk)]; [|discriminate].
    destruct (split_part_inside _ _ _ Hpart) as (a & b & E).
    exact (includes_inside _ _ _ _ _ E (Hfree _ Hseg)).
  - destruct Hin as [[= <-]|[]]. now apply Hfree.
Qed.

(** X13.  With a result installed, the highlighting is complete: no plain
    run of the rendering contains the (non-empty) original of any
    correction of the result, nor the (non-empty) last-changed text; every
    occurrence lying in plain text has been turned into a highlight. *)
Theorem plain_runs_hold_no_target (s : State) (r : FeedbackData) (t : string) :
  result s = Some r ->
  In (Text t) (runs (renderAnnotatedEssay s)) ->
  (forall correction,
      In correction (corrections r) ->
      Correction.original correction <> "" ->
      Js.includes t (Correction.original correction) = false)
  /\ (forall lastModified,
         lastModifiedText s = Some lastModified ->
         lastModified <> "" ->
         Js.includes t lastModified = false).
Proof.
  intros Hr Hin. unfold renderAnnotatedEssay in Hin. rewrite Hr in Hin.
  destruct (lastModifiedText s) as [lm|] eqn:Hlm.
  - destruct (Js.truthy (Some lm)) eqn:Htruthy; cbn [runs] in Hin.
    + split.
      * intros c Hc Hne. revert t Hin. apply annotateModified_keeps_free.
        now apply annotateCorrections_free.
      * intros lm' [= <-] Hne. now apply annotateModified_frees in Hin.
    + split.
      * intros c Hc Hne. revert t Hin. now apply annotateCorrections_free.
      * intros lm' [= <-] Hne. destruct lm; [congruence | discriminate].
  - cbn [runs] in Hin. split.
    + intros c Hc Hne. revert t Hin. now apply annotateCorrections_free.
    + discriminate.
Qed.

Lemma segment_inside (segments : list Segment) (segment : Segment) :
  In segment segments ->
  exists a b, concatText segments = a ++ segmentText segment ++ b.
Proof.
  induction segments as [|x segments IH]; [contradiction|].
  intros [->|Hin].
  - exists "", (concatText segments). reflexivity.
  - destruct (IH Hin) as (a & b & E).
    exists (segmentText x ++ a), b. cbn [concatText].
    rewrite E, !append_assoc. reflexivity.
Qed.

Lemma rendering_text (s : State) :
  concatText (runs (renderAnnotatedEssay s)) = essay s.
Proof.
  unfold renderAnnotatedEssay.
  destruct (result s) as [r|]; [|apply concatText_single].
  destruct (lastModifiedText s) as [lm|]; [destruct (Js.truthy (Some lm))|];
    cbn [runs]; rewrite ?concatText_annotateModified,
      concatText_annotateCorrections; apply concatText_single.
Qed.

Lemma annotateCorrection_spans (correction : Correction.t) (index0 : nat)
    (annotatedText : list Segment) (index i : nat) (c : Correction.t) :
  In (CorrectionSpan index i c) (annotateCorrection correction index0 annotatedText) ->
  In (CorrectionSpan index i c) annotatedText
  \/ (index = index0 /\ c = correction).
Proof.
  intros Hin. unfold annotateCorrection in Hin.
  apply in_flat_map in Hin as (segment & Hseg & Hin).
  destruct segment as [t0| |].
  - cbv zeta in Hin. destruct (Nat.ltb 1 _).
    + apply in_pushParts in Hin as [(part & Hp & _)|(k & [= -> _ ->])];
        [discriminate | now right].
    + destruct Hin as [Hin|[]]. discriminate.
  - destruct Hin as [<-|[]]. now left.
  - destruct Hin as [<-|[]]. now left.
Qed.

Lemma annotateCorrections_spans (cs : list Correction.t) (index0 : nat)
    (annotatedText : list Segment) (index i : nat) (c : Correction.t) :
  In (CorrectionSpan index i c) (annotateCorrections cs index0 annotatedText) ->
  In (CorrectionSpan index i c) annotatedText
  \/ (index0 <= index /\ nth_error cs (index - index0) = Some c).
Proof.
  revert index0 annotatedText.
  induction cs as [|c0 cs IH]; intros index0 annotatedText Hin; [now left|].
  cbn [annotateCorrections] in Hin. apply IH in Hin as [Hin|[Hle Hnth]].
  - apply annotateCorrection_spans in Hin as [Hin|[-> ->]]; [now left|].
    right. split; [lia|]. now rewrite Nat.sub_diag.
  - right. split; [lia|].
    replace (index - index0) with (S (index - S index0)) by lia. exact Hnth.
Qed.

Lemma annotateModified_spans (lastModified : string)
    (annotatedText : list Segment) (index i : nat) (c : Correction.t) :
  In (CorrectionSpan index i c) (annotateModified lastModified annotatedText) ->
  In (CorrectionSpan index i c) annotatedText.
Proof.
  intros Hin. unfold annotateModified in Hin.
  apply in_flat_map in Hin as (segment & Hseg & Hin).
  destruct segment as [t0| |].
  - destruct (Js.includes t0 lastModified).
    + cbv zeta in Hin.
      apply in_pushParts in Hin as [(part & Hp & _)|(k & Hk)]; discriminate.
    + destruct Hin as [Hin|[]]. discriminate.
  - now destruct Hin as [<-|[]].
  - now destruct Hin as [<-|[]].
Qed.

(** X14.  Every correction highlight of the rendering is actionable: the
    span with key [corr-index-i] carries the correction at position [index]
    of the result, and the original of that correction occurs in the essay,
    so that the click on it applies the fix to a target that is there. *)
Theorem correction_spans_actionable (s : State) (r : FeedbackData)
    (index i : nat) (c : Correction.t) :
  result s = Some r ->
  In (CorrectionSpan index i c) (runs (renderAnnotatedEssay s)) ->
  nth_error (corrections r) index = Some c
  /\ Js.includes (essay s) (Correction.original c) = true.
Proof.
  intros Hr Hin. split.
  - unfold renderAnnotatedEssay in Hin. rewrite Hr in Hin.
    assert (H : In (CorrectionSpan index i c)
                  (annotateCorrections (corrections r) 0 [Text (essay s)])).
    { destruct (lastModifiedText s) as [lm|]; [destruct (Js.truthy (Some lm))|];
        cbn [runs] in Hin; try exact Hin.
      now apply annotateModified_spans in Hin. }
    apply annotateCorrections_spans in H as [[H|[]]|[_ H]]; [discriminate|].
    now rewrite Nat.sub_0_r in H.
  - destruct (segment_inside _ _ Hin) as (a & b & E).
    rewrite rendering_text in E. apply includes_true. eauto.
Qed.

Lemma annotateCorrection_plain (correction : Correction.t) (index : nat)
    (t : string) :
  Js.includes t (Correction.original correction) = false ->
  annotateCorrection correction index [Text t] = [Text t].
Proof.
  intros H. unfold annotateCorrection. cbn [flat_map]. cbv zeta.
  now rewrite (split_absent _ _ H).
Qed.

(** X15.  A correction whose original is no longer in the essay is not
    highlighted any more: when no correction of the result has its original
    in the essay, and the last-changed text (if any) is not in it either,
    the rendering is the essay as one plain run. *)
Theorem absent_corrections_not_highlighted (s : State) (r : FeedbackData) :
  result s = Some r ->
  Forall (fun c => Js.includes (essay s) (Correction.original c) = false)
    (corrections r) ->
  (forall lastModified, lastModifiedText s = Some lastModified ->
                        Js.includes (essay s) lastModified = false) ->
  renderAnnotatedEssay s = Annotated [Text (essay s)].
Proof.
  intros Hr Hcs Hlm. unfold renderAnnotatedEssay. rewrite Hr.
  assert (H : annotateCorrections (corrections r) 0 [Text (essay s)]
              = [Text (essay s)]).
  { generalize 0. induction Hcs as [|c cs Hc _ IH]; intros n; [reflexivity|].
    cbn [annotateCorrections]. rewrite annotateCorrection_plain by exact Hc.
    apply IH. }
  rewrite H. destruct (lastModifiedText s) as [lm|]; [|reflexivity].
  destruct (Js.truthy (Some lm)); [|reflexivity].
  unfold annotateModified. cbn [flat_map]. now rewrite (Hlm lm eq_refl).
Qed.

Lemma annotateCorrection_keeps_span (correction : Correction.t) (index0 : nat)
    (annotatedText : list Segment) (index i : nat) (c : Correction.t) :
  In (CorrectionSpan index i c) annotatedText ->
  In (CorrectionSpan index i c) (annotateCorrection correction index0 annotatedText).
Proof.
  intros Hin. unfold annotateCorrection. apply in_flat_map.
  exists (CorrectionSpan index i c). split; [exact Hin | now left].
Qed.

Lemma annotateCorrections_keep_span (cs : list Correction.t) (index0 : nat)
    (annotatedText : list Segment) (index i : nat) (c : Correction.t) :
  In (CorrectionSpan index i c) annotatedText ->
  In (CorrectionSpan index i c) (annotateCorrections cs index0 annotatedText).
Proof.
  revert index0 annotatedText.
  induction cs as [|c0 cs IH]; intros index0 annotatedText Hin; [exact Hin|].
  cbn [annotateCorrections]. apply IH. now apply annotateCorrection_keeps_span.
Qed.

(** X16.  The first correction of the result is highlighted whenever its
    (non-empty) original occurs in the essay: the rendering then holds the
    span with key [corr-0-0] for it. *)
Theorem first_correction_highlighted (s : State) (r : FeedbackData)
    (c : Correction.t) (cs : list Correction.t) :
  result s = Some r ->
  corrections r = c :: cs ->
  Correction.original c <> "" ->
  Js.includes (essay s) (Correction.original c) = true ->
  In (CorrectionSpan 0 0 c) (runs (renderAnnotatedEssay s)).
Proof.
  intros Hr Hcs Hne Hin. unfold renderAnnotatedEssay. rewrite Hr, Hcs.
  assert (H : In (CorrectionSpan 0 0 c)
                (annotateCorrections (c :: cs) 0 [Text (essay s)])).
  { cbn [annotateCorrections]. apply annotateCorrections_keep_span.
    unfold annotateCorrection. cbn [flat_map]. cbv zeta.
    destruct (split_present _ _ Hne Hin) as (p & p' & ps & ->).
    apply in_or_app. left.
    change (Nat.ltb 1 (List.length (p :: p' :: ps))) with true.
    cbn [pushParts]. right. apply in_or_app. left.
    replace (Z.of_nat 0 <? Z.of_nat (List.length (p :: p' :: ps)) - 1)%Z with true
      by (symmetry; apply Z.ltb_lt; cbn [List.length]; lia).
    now left. }
  destruct (lastModifiedText s) as [lm|]; [destruct (Js.truthy (Some lm))|];
    cbn [runs]; try exact H.
  unfold annotateModified. apply in_flat_map.
  exists (CorrectionSpan 0 0 c). split; [exact H | now left].
Qed.

End Highlights.

(** ** The apply controls and the last-changed record *)

Section ApplyControls.

Local Open Scope string_scope.

Lemma truthy_Some (v : option string) :
  Js.truthy v = true -> exists t, v = Some t /\ t <> "".
Proof.
  destruct v as [[|c t]|]; try discriminate. intros _.
  exists (String c t). split; [reflexivity | discriminate].
Qed.

Lemma isApplied_false (essay t : string) :
  t <> "" -> isApplied essay (Some t) = false -> Js.includes essay t = true.
Proof.
  intros Hne H. unfold isApplied in H.
  destruct t; [congruence|]. cbn [Js.truthy andb] in H.
  now apply negb_false_iff in H.
Qed.

Lemma enabled_guard (essay : string) (target replacement : option string) :
  Js.truthy target && Js.truthy replacement = true ->
  isApplied essay target = false ->
  exists t r,
    target = Some t /\ replacement = Some r /\ t <> "" /\ r <> ""
    /\ Js.includes essay t = true.
Proof.
  intros E Ha. apply andb_prop in E as [Ht Hr].
  destruct (truthy_Some _ Ht) as (t & -> & Hne).
  destruct (truthy_Some _ Hr) as (r & -> & Hner).
  exists t, r. repeat split; auto. now apply isApplied_false.
Qed.

(** X18.  The apply button of a prioritized suggestion and the apply button
    of a tip are rendered enabled only for a non-empty target that occurs
    in the essay, together with a non-empty replacement; the button of the
    suggestion then reads "Apply this fix" and the button of the tip
    "Apply this fix to essay". *)
Theorem enabled_button_has_target (essay : string)
    (item : PrioritizedSuggestion.t) (tip : Tip.t) (b b' : ApplyButton) :
  suggestionButton essay item = Some b ->
  disabled b = false ->
  tipButton essay tip = Some b' ->
  disabled b' = false ->
  (exists t r,
      PrioritizedSuggestion.apply_to_text item = Some t
      /\ PrioritizedSuggestion.replacement_text item = Some r
      /\ t <> "" /\ r <> ""
      /\ Js.includes essay t = true
      /\ label b = ApplyThisFix)
  /\ (exists t r,
         Tip.apply_to_text tip = Some t
         /\ Tip.replacement_text tip = Some r
         /\ t <> "" /\ r <> ""
         /\ Js.includes essay t = true
         /\ label b' = ApplyThisFixToEssay).
Proof.
  unfold suggestionButton, applyButton, tipButton. intros Hb Hd Hb' Hd'. split.
  - destruct (Js.truthy (PrioritizedSuggestion.apply_to_text item)
              && Js.truthy (PrioritizedSuggestion.replacement_text item)) eqn:E;
      [|discriminate].
    injection Hb as <-. cbn [disabled label] in *.
    destruct (enabled_guard _ _ _ E Hd) as (t & r & Ht & Hr & Hne & Hner & Hin).
    exists t, r. rewrite Hd. repeat split; auto.
  - destruct (Js.truthy (Tip.apply_to_text tip)
              && Js.truthy (Tip.replacement_text tip)) eqn:E; [|discriminate].
    injection Hb' as <-. cbn [disabled label] in *.
    destruct (enabled_guard _ _ _ E Hd') as (t & r & Ht & Hr & Hne & Hner & Hin).
    exists t, r. rewrite Hd'. repeat split; auto.
Qed.

(** X19.  The click on a vocabulary card applies the fix exactly when the
    card is enabled, and then the target occurs in the essay and the card
    has the actionable look; the click on a disabled card changes
    nothing. *)
Theorem vocabulary_card_click (word : VocabularyEnrichment.t) (shiftKey : bool)
    (s : State) :
  (enrichmentCardDisabled (essay s) word = true ->
   enrichmentCardClick word shiftKey s = s)
  /\ (enrichmentCardDisabled (essay s) word = false ->
      exists t r,
        VocabularyEnrichment.target_text word = Some t
        /\ VocabularyEnrichment.replacement_text word = Some r
        /\ Js.includes (essay s) t = true
        /\ enrichmentCardLook (essay s) word = ActionableCard
        /\ enrichmentCardClick word shiftKey s = applyFix t r shiftKey s).
Proof.
  unfold enrichmentCardDisabled, enrichmentCardClick, enrichmentCardLook.
  destruct (VocabularyEnrichment.target_text word) as [t|];
    destruct (VocabularyEnrichment.replacement_text word) as [r|];
    split; intros H; try reflexivity; try discriminate.
  - apply orb_prop in H as [H|H].
    + apply negb_true_iff in H. now rewrite H.
    + rewrite H. now rewrite andb_false_r.
  - apply orb_false_elim in H as [Hc Ha]. apply negb_false_iff in Hc.
    exists t, r. rewrite Hc, Ha. repeat split.
    unfold canApply in Hc. apply andb_prop in Hc as [Ht _].
    destruct (truthy_Some _ Ht) as (t' & [= <-] & Hne).
    now apply isApplied_false.
  - cbn in H. destruct t; discriminate.
Qed.

(** X20.  Applying a fix whose target is in the essay and undoing it gives
    the essay text and the cursor of before back, and the suggestion is
    open again (not reported applied); the review mode and the last-changed
    record set by the apply stay. *)
Theorem apply_then_undo (s : State) (target replacement : string)
    (shiftKey : bool) :
  consistent s ->
  target <> "" ->
  Js.includes (essay s) target = true ->
  exists s1,
    handleUndo (applyFix target replacement shiftKey s) = Some s1
    /\ essay s1 = essay s
    /\ historyIndex s1 = historyIndex s
    /\ isApplied (essay s1) (Some target) = false
    /\ viewMode s1 = review
    /\ lastModifiedText s1
       = lastModifiedText (applyFix target replacement shiftKey s).
Proof.
  intros Hc Hne Hin.
  destruct (applyFix_updateEssay target replacement shiftKey s)
    as (He & Hh & Hi & _). cbv zeta in *.
  set (x := Js.replace (essay s) target replacement) in *.
  set (o := if shiftKey then None else Some replacement) in *.
  destruct (updateEssay_consistent_fields x o s Hc) as (Hh' & Hi' & Hprev).
  destruct (handleUndo_back (applyFix target replacement shiftKey s))
    as (snap & Hsnap & Hu).
  { rewrite Hi, Hh, Hi', Hh', length_app, length_firstn. destruct Hc as [Hr _].
    cbn [List.length]. lia. }
  rewrite Hi, Hh, Hi' in Hsnap.
  replace (historyIndex s + 1 - 1)%Z with (historyIndex s) in Hsnap by lia.
  rewrite Hprev in Hsnap. injection Hsnap as <-.
  eexists. split; [exact Hu|]. cbn [essay historyIndex setEssay setHistoryIndex
    viewMode lastModifiedText].
  split; [reflexivity|]. split; [rewrite Hi, Hi'; lia|]. split.
  - unfold isApplied. rewrite Hin. now rewrite andb_false_r.
  - split; [|reflexivity]. unfold applyFix.
    now destruct (selectedCriterion s).
Qed.

Lemma react_lastModifiedText (e : Event) (s s' : State) :
  react e s = Some s' ->
  lastModifiedText s' = lastModifiedText s
  \/ exists original replacement,
       e = ApplyFix original replacement false
       /\ replacement <> ""
       /\ lastModifiedText s' = Some replacement.
Proof.
  destruct e as [x|orig repl shift| |]; cbn [react].
  - intros [= <-]. now left.
  - intros [= <-]. unfold applyFix.
    destruct shift.
    + left. now destruct (selectedCriterion s).
    + destruct repl as [|c repl].
      * left. now destruct (selectedCriterion s).
      * right. exists orig, (String c repl).
        split; [reflexivity|]. split; [discriminate|].
        now destruct (selectedCriterion s).
  - unfold handleUndo. destruct (0 <? historyIndex s)%Z; [|intros [= <-]; now left].
    destruct (Js.get _ _); [|discriminate]. intros [= <-]. now left.
  - unfold handleRedo.
    destruct (historyIndex s <? _)%Z; [|intros [= <-]; now left].
    destruct (Js.get _ _); [|discriminate]. intros [= <-]. now left.
Qed.

(** X21.  In every session the last-changed record is either unset or the
    non-empty replacement text of a fix that was applied in the session
    without the shift key.  From the state the session has reached, a fix
    applied without the shift key and with a non-empty replacement sets the
    record to that replacement, and every other event (typing, undo, redo,
    a fix applied with shift, a fix with an empty replacement) succeeds and
    leaves the record as it is. *)
Theorem lastModifiedText_origin (es : list Event) :
  exists s,
    run es mounted = Some s
    /\ match lastModifiedText s with
       | None => True
       | Some replacement =>
           replacement <> ""
           /\ exists original, In (ApplyFix original replacement false) es
       end
    /\ (forall original replacement,
          replacement <> "" ->
          lastModifiedText (applyFix original replacement false s)
          = Some replacement)
    /\ (forall e,
          match e with
          | ApplyFix _ replacement false => replacement = ""
          | _ => True
          end ->
          exists s', react e s = Some s'
                     /\ lastModifiedText s' = lastModifiedText s).
Proof.
  assert (G : forall es s0 s,
             run es s0 = Some s ->
             lastModifiedText s = lastModifiedText s0
             \/ exists original replacement,
                  lastModifiedText s = Some replacement
                  /\ replacement <> ""
                  /\ In (ApplyFix original replacement false) es).
  { clear es. induction es as [|e es IH]; intros s0 s; cbn [run].
    - intros [= <-]. now left.
    - destruct (react e s0) as [s1|] eqn:E; [|discriminate].
      intros Hrun. apply IH in Hrun as [Hsame|(o & r & Hl & Hne & Hin)].
      + apply react_lastModifiedText in E as [E|(o & r & -> & Hne & Hl)].
        * left. congruence.
        * right. exists o, r. rewrite Hsame. repeat split; auto. now left.
      + right. exists o, r. repeat split; auto. now right. }
  assert (Hm : wellFormed mounted) by (left; split; reflexivity).
  destruct (run_wellFormed es mounted Hm) as (s & Hrun & Hs).
  assert (Hw : wellFormed s).
  { destruct (existsb commits es); [now right|].
    destruct Hs as (_ & Hp & _). left. rewrite Hp by (split; reflexivity).
    split; reflexivity. }
  exists s. split; [exact Hrun|]. split; [|split].
  - destruct (G es mounted s Hrun) as [Hsame|(o & r & Hl & Hne & Hin)].
    + now rewrite Hsame.
    + rewrite Hl. split; [exact Hne | now exists o].
  - intros o r Hne. unfold applyFix, updateEssay.
    destruct r; [congruence|]. now destruct (selectedCriterion s).
  - intros e He. destruct (react_wellFormed e s Hw) as (s' & Hreact & _).
    exists s'. split; [exact Hreact|].
    destruct (react_lastModifiedText e s s' Hreact)
      as [Hsame|(o & r & -> & Hne & _)]; [exact Hsame | congruence].
Qed.

End ApplyControls.

(** ** Applying with an absent target *)

Section ApplyActions.

Local Open Scope string_scope.

Lemma pairOf_Some (target replacement : option string) (t r : string) :
  pairOf target replacement = Some (t, r) ->
  target = Some t /\ replacement = Some r
  /\ Js.truthy target && Js.truthy replacement = true.
Proof.
  unfold pairOf, canApply.
  destruct target as [t'|], replacement as [r'|]; try discriminate.
  destruct (Js.truthy (Some t') && Js.truthy (Some r')); [|discriminate].
  now intros [= -> ->].
Qed.

Lemma isApplied_absent (essay t : string) (replacement : option string) :
  Js.truthy (Some t) && Js.truthy replacement = true ->
  Js.includes essay t = false ->
  isApplied essay (Some t) = true.
Proof.
  intros E Habs. apply andb_prop in E as [Ht _].
  unfold isApplied. now rewrite Ht, Habs.
Qed.

Lemma isApplied_present (essay t : string) :
  Js.includes essay t = true -> isApplied essay (Some t) = false.
Proof. intros H. unfold isApplied. rewrite H. apply andb_false_r. Qed.

(** The original of a correction span of the review is in the essay. *)
Lemma span_original_present (s : State) (n index i : nat) (c : Correction.t) :
  nth_error (runs (renderAnnotatedEssay s)) n = Some (CorrectionSpan index i c) ->
  Js.includes (essay s) (Correction.original c) = true.
Proof.
  intros H. apply nth_error_In in H.
  destruct (segment_inside _ _ H) as (a & b & E).
  rewrite rendering_text in E. apply includes_true. eauto.
Qed.

(** What the click on a control does, by the presence of its target. *)
Lemma clickControl_cases (c : ApplyControl) (shiftKey : bool) (s : State)
    (target replacement : string) :
  controlPair c s = Some (target, replacement) ->
  clickControl c shiftKey s
  = if Js.includes (essay s) target then applyFix target replacement shiftKey s
    else s.
Proof.
  unfold controlPair, clickControl.
  destruct (result s) as [r|]; [|discriminate].
  destruct c as [idx|idx|idx|idx|n].
  - destruct (nth_error (prioritized_suggestions r) idx) as [item|]; [|discriminate].
    intros H. apply pairOf_Some in H as (Ht & Hr & E).
    unfold suggestionButtonClick, suggestionButton, applyButton.
    rewrite Ht, Hr in *. rewrite E. cbn [disabled].
    destruct (Js.includes (essay s) target) eqn:Hin.
    + now rewrite isApplied_present.
    + now rewrite (isApplied_absent _ _ _ E Hin).
  - destruct (tipItem r s idx) as [tip|]; [|discriminate].
    intros H. apply pairOf_Some in H as (Ht & Hr & E).
    unfold tipButtonClick, tipButton.
    rewrite Ht, Hr in *. rewrite E. cbn [disabled].
    destruct (Js.includes (essay s) target) eqn:Hin.
    + now rewrite isApplied_present.
    + now rewrite (isApplied_absent _ _ _ E Hin).
  - destruct (enrichmentItem r idx) as [item|]; [|discriminate].
    intros H. apply pairOf_Some in H as (Ht & Hr & E).
    unfold enrichmentCardClick, canApply. rewrite Ht, Hr in *. rewrite E.
    destruct (Js.includes (essay s) target) eqn:Hin.
    + now rewrite isApplied_present.
    + now rewrite (isApplied_absent _ _ _ E Hin).
  - destruct (enrichmentItem r idx) as [item|]; [|discriminate].
    intros H. apply pairOf_Some in H as (Ht & Hr & E).
    unfold enrichmentBadgeClick, enrichmentBadge, canApply.
    rewrite Ht, Hr in *. rewrite E.
    destruct (Js.includes (essay s) target) eqn:Hin.
    + now rewrite isApplied_present.
    + now rewrite (isApplied_absent _ _ _ E Hin).
  - unfold highlightClick. destruct (viewMode s); [discriminate|].
    destruct (nth_error (runs (renderAnnotatedEssay s)) n) as [[t|index i c|i h]|] eqn:E;
      try discriminate.
    intros [= <- <-]. now rewrite (span_original_present _ _ _ _ _ E).
Qed.

(** C1 (apply with an absent target).  For every state of the page and
    every apply control on it (the button of a suggestion or of a tip, a
    vocabulary card or its badge, a correction span of the review) that
    stands for a pair (target, replacement) whose target is not a substring
    of the essay, the click on the control is a no-op: the state it returns
    is the state it was given, with the same essay text, the same history
    and the same cursor; nothing is raised. *)
Theorem apply_absent_target_noop (c : ApplyControl) (shiftKey : bool)
    (s : State) (target replacement : string) :
  controlPair c s = Some (target, replacement) ->
  Js.includes (essay s) target = false ->
  clickControl c shiftKey s = s
  /\ essay (clickControl c shiftKey s) = essay s
  /\ history (clickControl c shiftKey s) = history s
  /\ historyIndex (clickControl c shiftKey s) = historyIndex s.
Proof.
  intros Hpair Habs.
  rewrite (clickControl_cases c shiftKey s target replacement Hpair), Habs.
  repeat split.
Qed.

(** With the target in the essay, the click is the fix. *)
Lemma apply_present_target (c : ApplyControl) (shiftKey : bool)
    (s : State) (target replacement : string) :
  controlPair c s = Some (target, replacement) ->
  Js.includes (essay s) target = true ->
  clickControl c shiftKey s = applyFix target replacement shiftKey s.
Proof.
  intros Hpair Hin.
  now rewrite (clickControl_cases c shiftKey s target replacement Hpair), Hin.
Qed.

End ApplyActions.

(** ** Criterion titles *)

Section CriterionTitles.

Local Open Scope string_scope.

Lemma substringFrom_add (s : string) (i j : nat) :
  Js.substringFrom (Js.substringFrom s i) j = Js.substringFrom s (i + j).
Proof.
  revert s. induction i as [|i IH]; intros s.
  - now rewrite substringFrom_0.
  - destruct s as [|b s]; [now destruct j|]. cbn [Js.substringFrom Nat.add]. apply IH.
Qed.

Lemma substringFrom_length (s : string) (i : nat) :
  String.length (Js.substringFrom s i) = String.length s - i.
Proof.
  revert s. induction i as [|i IH]; intros s.
  - rewrite substringFrom_0. lia.
  - destruct s as [|b s]; [reflexivity|]. cbn [Js.substringFrom String.length].
    rewrite IH. lia.
Qed.

(** The loop of [split] from position [i] is the loop on the text from
    [i] on. *)
Lemma splitLoop_shift (s : string) (c : ascii) (r : string) (i : nat) :
  Js.splitLoop s c r i = Js.splitLoop (Js.substringFrom s i) c r 0.
Proof.
  remember (String.length s - i) as n eqn:Hn.
  revert s i Hn. induction n as [n IH] using lt_wf_ind. intros s i Hn.
  rewrite (splitLoop_unfold s), (splitLoop_unfold (Js.substringFrom s i)).
  rewrite StringIndexOf_shift.
  destruct (Js.StringIndexOf (Js.substringFrom s i) (String c r) 0) as [k|] eqn:E;
    cbn [option_map].
  - pose proof (Js.StringIndexOf_range _ _ _ _ E) as [_ Hk].
    rewrite substringFrom_length in Hk. cbn [String.length] in *.
    rewrite substring_shift. f_equal.
    rewrite (IH (String.length s - (i + k + S (String.length r))))
      with (i := i + k + S (String.length r)) by lia.
    rewrite (IH (String.length (Js.substringFrom s i) - (k + S (String.length r))))
      with (s := Js.substringFrom s i) (i := k + S (String.length r))
      by (rewrite ?substringFrom_length; lia).
    rewrite substringFrom_add. f_equal. f_equal. lia.
  - now rewrite substringFrom_0.
Qed.

Lemma split_splitLoop (s : string) (c : ascii) (r : string) :
  Js.split s (String c r) = Js.splitLoop s c r 0.
Proof.
  unfold Js.split. destruct s; [|reflexivity].
  now rewrite splitLoop_unfold.
Qed.

Lemma startsWith_empty (s : string) : Js.startsWith s "" = true.
Proof. now destruct s. Qed.

Lemma StringIndexOf_char (c : ascii) (w rest : string) :
  lacks c w = true ->
  Js.StringIndexOf (w ++ String c rest) (String c "") 0 = Some (String.length w).
Proof.
  induction w as [|a w IH]; intros H.
  - cbn [append Js.StringIndexOf Js.startsWith].
    now rewrite Ascii.eqb_refl, startsWith_empty.
  - cbn [lacks] in H. apply andb_prop in H as [Ha Hw].
    apply negb_true_iff in Ha.
    cbn [append Js.StringIndexOf Js.startsWith]. rewrite Ha. cbn [andb].
    now rewrite (IH Hw).
Qed.

Lemma substring_prefix (a b : string) :
  Js.substring (a ++ b) 0 (String.length a) = a.
Proof.
  unfold Js.substring. rewrite Nat.sub_0_r.
  induction a as [|x a IH]; simpl; [now destruct b | now rewrite IH].
Qed.

Lemma substringFrom_suffix (a b : string) :
  Js.substringFrom (a ++ b) (String.length a) = b.
Proof. induction a as [|x a IH]; simpl; [apply substringFrom_0 | exact IH]. Qed.

Lemma lacks_absent (c : ascii) (w : string) :
  lacks c w = true -> Js.includes w (String c "") = false.
Proof.
  intros H. unfold Js.includes.
  induction w as [|a w IH]; [reflexivity|].
  cbn [lacks] in H. apply andb_prop in H as [Ha Hw]. apply negb_true_iff in Ha.
  cbn [Js.StringIndexOf Js.startsWith]. rewrite Ha. cbn [andb].
  specialize (IH Hw). now destruct (Js.StringIndexOf w (String c "") 0).
Qed.

(** Splitting at a one-code-unit separator undoes joining words that lack
    it. *)
Lemma split_join_char (c : ascii) (ws : list string) :
  ws <> [] ->
  Forall (fun w => lacks c w = true) ws ->
  Js.split (Js.join (String c "") ws) (String c "") = ws.
Proof.
  induction ws as [|w ws IH]; intros Hne H; [congruence|].
  inversion H as [|? ? Hw Hws]; subst.
  destruct ws as [|w' ws].
  - cbn [Js.join]. apply split_absent. now apply lacks_absent.
  - change (Js.join (String c "") (w :: w' :: ws))
      with (w ++ String c (Js.join (String c "") (w' :: ws))).
    rewrite split_splitLoop, splitLoop_unfold, StringIndexOf_char by exact Hw.
    rewrite substring_prefix. f_equal.
    rewrite splitLoop_shift.
    replace (String.length w + String.length (String c ""))
      with (String.length (w ++ String c "")) by (rewrite length_append; reflexivity).
    replace (w ++ String c (Js.join (String c "") (w' :: ws)))
      with ((w ++ String c "") ++ Js.join (String c "") (w' :: ws))
      by (rewrite append_assoc; reflexivity).
    rewrite substringFrom_suffix, <- split_splitLoop.
    apply IH; [discriminate | exact Hws].
Qed.

(** X22.  [formatCriterionName] capitalises every underscore-separated word
    of the key and joins the words with " & ": for words without
    underscore, the title of the words joined by underscores is the
    capitalised words joined by " & " (so "task_achievement" reads
    "Task & Achievement"). *)
Theorem formatCriterionName_words (ws : list string) :
  Forall (fun w => lacks "_" w = true) ws ->
  formatCriterionName (Js.join "_" ws)
  = option_map (Js.join " & ") (capitalizeAll ws).
Proof.
  intros H. unfold formatCriterionName. destruct ws as [|w ws]; [reflexivity|].
  now rewrite split_join_char.
Qed.

End CriterionTitles.

(** ** The page and the route *)

Section PageAndRoute.

Local Open Scope string_scope.

Variable Json : Type.
Variable promptOf : string -> string -> string.
Variable parse : string -> option Json.
Variable errorObject : string -> Json.

(** X23.  The route consults the model only for a readable body with a
    non-empty essay: for an unreadable or null body (status 500) and for a
    missing or empty essay (status 400, "Essay content is required") the
    response is the same whatever the model and the parser would answer. *)
Theorem route_guard (create create' : string -> Completion)
    (parse' : string -> option Json) (body : RequestBody) :
  match body with
  | Fields essay _ => Js.truthy essay = false
  | _ => True
  end ->
  POST Json promptOf create parse errorObject body
  = POST Json promptOf create' parse' errorObject body
  /\ status Json (POST Json promptOf create parse errorObject body)
     = match body with Fields _ _ => 400%Z | _ => 500%Z end.
Proof.
  destruct body as [| |essay taskType]; cbn [POST]; intros H; try now split.
  rewrite H. now split.
Qed.

Lemma requestSent_truthy (s : State) :
  requestSent s = true -> Js.truthy (Some (essay s)) = true.
Proof.
  unfold requestSent. destruct (essay s); [discriminate | reflexivity].
Qed.

Lemma handleAnalyze_sent (o : FetchOutcome) (during : list Event) (s : State) :
  wellFormed s ->
  requestSent s = true ->
  exists s1,
    run during s = Some s1
    /\ handleAnalyze o during s
       = Some (handleAnalyze_settle o
                 (setResult None (setLoading true (setError "" s1)))).
Proof.
  intros Hw Hsent.
  destruct (run_wellFormed during s Hw) as (s1 & Hrun & _).
  exists s1. split; [exact Hrun|].
  unfold handleAnalyze, handleAnalyze_begin. rewrite Hsent. cbn [negb].
  now rewrite run_begin, Hrun.
Qed.

(** X24.  The request of the page through the route: for an essay with at
    least one word the route never answers 400; the model is asked with the
    prompt of the task type and of the essay as they were at the click; the
    route answers 200, with the parsed value as its payload, exactly when
    the model gives a message whose content (or "{}" for no content)
    parses; in every other case it answers 500, the response is not ok, and
    the page then ends with the loading flag cleared, no result and the
    generic message, whatever document events happened meanwhile. *)
Theorem analysis_through_route (create : string -> Completion)
    (during : list Event) (s : State) :
  wellFormed s ->
  requestSent s = true ->
  let response := POST Json promptOf create parse errorObject
                    (analyzeRequest s) in
  let answer := create (promptOf (taskTypeName (taskType s)) (essay s)) in
  let failure :=
    status Json response = 500%Z
    /\ responseOk Json response = false
    /\ exists s',
         handleAnalyze HttpFailure during s = Some s'
         /\ loading s' = false
         /\ result s' = None
         /\ error s' = "Something went wrong. Please try again." in
  status Json response <> 400%Z
  /\ match answer with
     | Message content =>
         match parse (orElse content "{}") with
         | Some value =>
             status Json response = 200%Z
             /\ responseOk Json response = true
             /\ payload Json response = value
         | None => failure
         end
     | _ => failure
     end.
Proof.
  intros Hw Hsent. cbv zeta.
  pose proof (requestSent_truthy s Hsent) as Ht.
  assert (Hessay : orElse (Some (essay s)) "" = essay s)
    by (unfold orElse; now rewrite Ht).
  assert (Htask : orElse (Some (taskTypeName (taskType s))) "Task 2"
                  = taskTypeName (taskType s))
    by now destruct (taskType s).
  assert (Hfail : exists s',
             handleAnalyze HttpFailure during s = Some s'
             /\ loading s' = false
             /\ result s' = None
             /\ error s' = "Something went wrong. Please try again.").
  { destruct (handleAnalyze_sent HttpFailure during s Hw Hsent) as (s1 & _ & ->).
    eexists. split; [reflexivity|]. repeat split. }
  unfold analyzeRequest, POST.
  rewrite Ht, Hessay, Htask. cbn [negb].
  destruct (create (promptOf (taskTypeName (taskType s)) (essay s)))
    as [| |content]; [now repeat split | now repeat split |].
  destruct (parse (orElse content "{}")) as [value|]; now repeat split.
Qed.

End PageAndRoute.

(** ** Concrete sessions *)

Section Concrete.

Local Open Scope string_scope.

(** C2, as stated, fails: with [sampleResult] installed, a request that
    fails leaves no result installed at all. *)
Lemma failed_analysis_drops_result :
  result analysed = Some sampleResult
  /\ requestSent analysed = true
  /\ exists s',
       handleAnalyze HttpFailure [] analysed = Some s'
       /\ loading s' = false
       /\ result s' = None
       /\ result s' <> result analysed.
Proof.
  split; [reflexivity|]. split; [reflexivity|].
  eexists. split; [reflexivity|]. repeat split. discriminate.
Qed.

(** C4: the example of the specification holds, but a replacement text
    with a dollar pattern is not inserted literally: "$$5" arrives as "$5",
    while the last-changed record holds the literal "$$5", which the essay
    does not contain. *)
Theorem applyFix_dollar_pattern :
  essay (applyFix "bad" "good" false badBad) = "good bad"
  /\ essay (applyFix "bad" "$$5" false badBad) = "$5 bad"
  /\ essay (applyFix "bad" "$$5" false badBad) <> "$$5 bad"
  /\ lastModifiedText (applyFix "bad" "$$5" false badBad) = Some "$$5"
  /\ Js.includes (essay (applyFix "bad" "$$5" false badBad)) "$$5" = false.
Proof. repeat split; try reflexivity. vm_compute. discriminate. Qed.

(** C5, as stated, fails: with two occurrences of the target, the second
    apply changes the essay again, and the suggestion is not reported
    applied after the first. *)
Lemma applyFix_twice_changes_twice :
  essay (applyFix "bad" "good" false badBad) = "good bad"
  /\ isApplied (essay (applyFix "bad" "good" false badBad)) (Some "bad") = false
  /\ essay (applyFix "bad" "good" false (applyFix "bad" "good" false badBad))
     = "good good"
  /\ essay (applyFix "bad" "good" false (applyFix "bad" "good" false badBad))
     <> essay (applyFix "bad" "good" false badBad).
Proof. repeat split; try reflexivity. vm_compute. discriminate. Qed.

(** A target that occurs once and is not in the replacement can come
    back: b for ab in "aab" gives "ab". *)
Lemma applyFix_recreates_target :
  essay (applyFix "ab" "b" false (updateEssay "aab" None mounted)) = "ab"
  /\ isApplied (essay (applyFix "ab" "b" false (updateEssay "aab" None mounted)))
       (Some "ab") = false.
Proof. split; reflexivity. Qed.

(** C6, as stated, fails: after the prefix [Undo] of the sequence
    [Undo; SetText "a"] the session is still in its start state, whose
    cursor -1 is not an index into the (empty) history. *)
Lemma cursor_invalid_before_first_commit :
  run (firstn 1 [Undo; SetText "a"]) mounted = Some mounted
  /\ history mounted = []
  /\ historyIndex mounted = (-1)%Z
  /\ Js.get (history mounted) (historyIndex mounted) = None
  /\ ~ consistent mounted.
Proof.
  repeat split. intros [[H _] _]. vm_compute in H. now apply H.
Qed.

(** C8, as stated, fails: in [fixed] the last-changed record is "have";
    undo moves back to the first snapshot and the record is still "have". *)
Lemma undo_leaves_lastModifiedText :
  lastModifiedText fixed = Some "have"
  /\ exists s',
       handleUndo fixed = Some s'
       /\ historyIndex s' = 0%Z
       /\ essay s' = "I has a dog"
       /\ lastModifiedText s' = Some "have"
       /\ lastModifiedText s' <> None.
Proof.
  split; [reflexivity|]. eexists. split; [reflexivity|].
  repeat split. discriminate.
Qed.

(** An instance: the network fails while the user edits and undoes. *)
Lemma failed_analysis_witness :
  wellFormed analysed
  /\ result analysed = Some sampleResult
  /\ requestSent analysed = true
  /\ failed NetworkFailure = true
  /\ exists s',
       handleAnalyze NetworkFailure [SetText "I have a dog"; Undo] analysed = Some s'
       /\ loading s' = false
       /\ result s' = None
       /\ error s' = "Something went wrong. Please try again.".
Proof.
  assert (Hw : wellFormed analysed)
    by (right; exact (updateEssay_consistent "I has a dog" None mounted)).
  split; [exact Hw|]. split; [reflexivity|]. split; [reflexivity|].
  split; [reflexivity|].
  exact (failed_analysis analysed sampleResult NetworkFailure
           [SetText "I have a dog"; Undo] Hw eq_refl eq_refl eq_refl).
Defined.

(** An instance: the fix of has by have applied twice to [typed]. *)
Lemma applyFix_twice_witness :
  "has" <> ""
  /\ essay (applyFix "has" "have" false typed) = "I have a dog"
  /\ isApplied (essay (applyFix "has" "have" false typed)) (Some "has") = true
  /\ essay (applyFix "has" "have" false (applyFix "has" "have" false typed))
     = essay (applyFix "has" "have" false typed)
  /\ essay (applyFix "has" "have" false typed) <> essay typed
  /\ isApplied (essay typed) (Some "has") = false.
Proof.
  assert (Hne : "has" <> "") by discriminate.
  destruct (applyFix_twice typed "has" "have" false false Hne)
    as (Hfirst & Happlied & Hgone & _).
  destruct (Hgone eq_refl) as (Hsame & Hchanged).
  destruct (Hchanged eq_refl) as (Hdiff & Hopen).
  split; [exact Hne|]. split; [exact Hfirst|]. split; [exact Happlied|].
  split; [exact Hsame|]. split; [exact Hdiff | exact Hopen].
Defined.

(** An instance: undo in [fixed], then a new text. *)
Lemma branch_truncation_witness :
  (0 < historyIndex fixed < Z.of_nat (List.length (history fixed)))%Z
  /\ exists s1,
       handleUndo fixed = Some s1
       /\ let s2 := updateEssay "I had a dog" None s1 in
          history s2
          = (firstn (Z.to_nat (historyIndex fixed)) (history fixed)
             ++ ["I had a dog"])%list
          /\ historyIndex s2 = (Z.of_nat (List.length (history s2)) - 1)%Z
          /\ historyIndex s2 = historyIndex fixed
          /\ handleRedo s2 = Some s2
          /\ forall moves, existsb commits moves = false ->
               exists s3, run moves s2 = Some s3
                          /\ history s3 = history s2 /\ consistent s3.
Proof.
  assert (H : (0 < historyIndex fixed < Z.of_nat (List.length (history fixed)))%Z)
    by (vm_compute; split; reflexivity).
  split; [exact H|].
  exact (branch_truncation fixed "I had a dog" None H).
Defined.

(** An instance: undo in [fixed]. *)
Lemma undo_keeps_lastModifiedText_witness :
  (0 < historyIndex fixed < Z.of_nat (List.length (history fixed)))%Z
  /\ exists s',
       handleUndo fixed = Some s'
       /\ historyIndex s' = (historyIndex fixed - 1)%Z
       /\ Js.get (history fixed) (historyIndex s') = Some (essay s')
       /\ history s' = history fixed
       /\ lastModifiedText s' = lastModifiedText fixed.
Proof.
  assert (H : (0 < historyIndex fixed < Z.of_nat (List.length (history fixed)))%Z)
    by (vm_compute; split; reflexivity).
  split; [exact H|].
  exact (undo_keeps_lastModifiedText fixed H).
Defined.

(** An instance: the three sample items with an empty target. *)
Lemma empty_target_informational_witness :
  PrioritizedSuggestion.apply_to_text emptySuggestion = Some ""
  /\ Tip.apply_to_text emptyTip = Some ""
  /\ VocabularyEnrichment.target_text emptyWord = Some ""
  /\ suggestionButton "I has a dog" emptySuggestion = None
  /\ tipButton "I has a dog" emptyTip = None
  /\ enrichmentCardLook "I has a dog" emptyWord = InertCard.
Proof.
  pose proof (empty_target_informational "I has a dog" emptySuggestion emptyTip
                emptyWord eq_refl eq_refl eq_refl) as H.
  repeat split; apply H.
Defined.

End Concrete.

(** ** Instances of the further properties *)

Section Instances.

Local Open Scope string_scope.

Lemma fixed_consistent : consistent fixed.
Proof. apply applyFix_consistent. Qed.

Lemma typed_consistent : consistent typed.
Proof. apply updateEssay_consistent. Qed.

Lemma undone_consistent : consistent undone.
Proof. split; [vm_compute; split; [discriminate | reflexivity] | reflexivity]. Qed.

Lemma analysed_wellFormed : wellFormed analysed.
Proof. right. exact (updateEssay_consistent "I has a dog" None mounted). Qed.

(** One undo and one redo in [fixed]. *)
Lemma undos_then_redos_witness :
  consistent fixed /\ (Z.of_nat 1 <= historyIndex fixed)%Z
  /\ run (repeat Undo 1 ++ repeat Redo 1) fixed = Some fixed.
Proof.
  assert (H : (Z.of_nat 1 <= historyIndex fixed)%Z) by (vm_compute; discriminate).
  split; [exact fixed_consistent|]. split; [exact H|].
  exact (undos_then_redos 1 fixed fixed_consistent H).
Defined.

(** One redo and one undo in [undone]. *)
Lemma redos_then_undos_witness :
  consistent undone
  /\ (historyIndex undone + Z.of_nat 1
      <= Z.of_nat (List.length (history undone)) - 1)%Z
  /\ run (repeat Redo 1 ++ repeat Undo 1) undone = Some undone.
Proof.
  assert (H : (historyIndex undone + Z.of_nat 1
               <= Z.of_nat (List.length (history undone)) - 1)%Z)
    by (vm_compute; discriminate).
  split; [exact undone_consistent|]. split; [exact H|].
  exact (redos_then_undos 1 undone undone_consistent H).
Defined.

(** An edit of the typed essay, undone and redone. *)
Lemma edit_then_undo_witness :
  consistent typed
  /\ exists s1, handleUndo (updateEssay "I had a dog" None typed) = Some s1
                /\ essay s1 = essay typed
                /\ historyIndex s1 = historyIndex typed
                /\ handleRedo s1 = Some (updateEssay "I had a dog" None typed).
Proof.
  split; [exact typed_consistent|].
  exact (edit_then_undo typed "I had a dog" None typed_consistent).
Defined.

(** Three edits of the typed essay and three undos. *)
Lemma edits_then_undos_witness :
  consistent typed
  /\ exists s',
       run (map SetText ["a"; "ab"; "abc"] ++ repeat Undo 3) typed = Some s'
       /\ essay s' = essay typed
       /\ historyIndex s' = historyIndex typed.
Proof.
  split; [exact typed_consistent|].
  exact (edits_then_undos ["a"; "ab"; "abc"] typed typed_consistent).
Defined.

(** The buttons in [fixed]: undo enabled, redo disabled. *)
Lemma history_buttons_witness :
  wellFormed fixed
  /\ (undoDisabled fixed = true <-> handleUndo fixed = Some fixed)
  /\ (redoDisabled fixed = true <-> handleRedo fixed = Some fixed).
Proof.
  assert (Hw : wellFormed fixed) by (right; exact fixed_consistent).
  split; [exact Hw|]. exact (history_buttons fixed Hw).
Defined.

(** Ctrl+Z, Cmd+Y and a letter in [fixed]. *)
Lemma keyboard_keeps_history_witness :
  wellFormed fixed
  /\ exists s', runKeys sampleKeys fixed = Some s'
                /\ wellFormed s'
                /\ history s' = history fixed
                /\ result s' = result fixed
                /\ lastModifiedText s' = lastModifiedText fixed.
Proof.
  assert (Hw : wellFormed fixed) by (right; exact fixed_consistent).
  split; [exact Hw|]. exact (keyboard_keeps_history sampleKeys fixed Hw).
Defined.

(** Two texts joined by a line feed. *)
Lemma wordCount_additive_witness :
  Js.isWhiteSpace "010" = true
  /\ wordCount ("I has" ++ String "010" "a dog")
     = wordCount "I has" + wordCount "a dog".
Proof.
  split; [reflexivity|].
  exact (wordCount_additive "I has" "a dog" "010" eq_refl).
Defined.

(** The four words of the typed essay. *)
Lemma words_of_joined_witness :
  Forall (fun w => spaceFree w = true /\ w <> "") ["I"; "has"; "a"; "dog"]
  /\ nonEmptyWords (splitSpaces (Js.join " " ["I"; "has"; "a"; "dog"]))
     = ["I"; "has"; "a"; "dog"]
  /\ wordCount (Js.join " " ["I"; "has"; "a"; "dog"]) = 4.
Proof.
  assert (H : Forall (fun w => spaceFree w = true /\ w <> "")
                ["I"; "has"; "a"; "dog"])
    by (repeat constructor; discriminate).
  split; [exact H|]. exact (words_of_joined ["I"; "has"; "a"; "dog"] H).
Defined.

(** Analyze pressed on an essay of two spaces. *)
Lemma analysis_of_blank_essay_witness :
  wordCount (essay (updateEssay "  " None analysed)) = 0
  /\ handleAnalyze (Success sampleResult) [] (updateEssay "  " None analysed)
     = Some (setError "Please enter your essay." (updateEssay "  " None analysed)).
Proof.
  assert (H : wordCount (essay (updateEssay "  " None analysed)) = 0)
    by reflexivity.
  split; [exact H|].
  exact (analysis_of_blank_essay (updateEssay "  " None analysed)
           (Success sampleResult) [] H).
Defined.

(** A successful analysis of [typed] while the user edits and undoes. *)
Lemma successful_analysis_witness :
  wellFormed typed /\ requestSent typed = true
  /\ exists s1 s',
       run [SetText "I had a dog"; Undo] typed = Some s1
       /\ handleAnalyze (Success sampleResult) [SetText "I had a dog"; Undo] typed
          = Some s'
       /\ result s' = Some sampleResult
       /\ loading s' = false
       /\ error s' = ""
       /\ viewMode s' = review
       /\ essay s' = essay s1
       /\ history s' = history s1
       /\ historyIndex s' = historyIndex s1
       /\ lastModifiedText s' = lastModifiedText s1.
Proof.
  assert (Hw : wellFormed typed) by (right; exact typed_consistent).
  split; [exact Hw|]. split; [reflexivity|].
  exact (successful_analysis typed sampleResult [SetText "I had a dog"; Undo]
           Hw eq_refl).
Defined.

(** A request for [analysed] in flight while the user types. *)
Lemma analysis_in_flight_witness :
  wellFormed analysed /\ requestSent analysed = true
  /\ exists s1,
       run [SetText "I had a dog"] (handleAnalyze_begin analysed) = Some s1
       /\ loading s1 = true
       /\ analyzeDisabled s1 = true
       /\ result s1 = None
       /\ renderAnnotatedEssay s1 = Bare (essay s1).
Proof.
  split; [exact analysed_wellFormed|]. split; [reflexivity|].
  exact (analysis_in_flight analysed [SetText "I had a dog"]
           analysed_wellFormed eq_refl).
Defined.

(** The plain run after the highlight in the review of [analysed]. *)
Lemma plain_runs_hold_no_target_witness :
  result analysed = Some sampleResult
  /\ In (Text " a dog") (runs (renderAnnotatedEssay analysed))
  /\ Js.includes " a dog" (Correction.original sampleCorrection) = false.
Proof.
  assert (Hin : In (Text " a dog") (runs (renderAnnotatedEssay analysed)))
    by (vm_compute; auto).
  split; [reflexivity|]. split; [exact Hin|].
  destruct (plain_runs_hold_no_target analysed sampleResult " a dog" eq_refl Hin)
    as [Hc _].
  apply Hc; [now left | discriminate].
Defined.

(** The highlight of "has" in the review of [analysed]. *)
Lemma correction_spans_actionable_witness :
  result analysed = Some sampleResult
  /\ In (CorrectionSpan 0 0 sampleCorrection) (runs (renderAnnotatedEssay analysed))
  /\ nth_error (corrections sampleResult) 0 = Some sampleCorrection
  /\ Js.includes (essay analysed) (Correction.original sampleCorrection) = true.
Proof.
  assert (Hin : In (CorrectionSpan 0 0 sampleCorrection)
                  (runs (renderAnnotatedEssay analysed)))
    by (vm_compute; auto).
  split; [reflexivity|]. split; [exact Hin|].
  exact (correction_spans_actionable analysed sampleResult 0 0 sampleCorrection
           eq_refl Hin).
Defined.

(** The review after the fix was applied with the shift key. *)
Lemma absent_corrections_not_highlighted_witness :
  result fixedQuietly = Some sampleResult
  /\ Forall (fun c => Js.includes (essay fixedQuietly) (Correction.original c) = false)
       (corrections sampleResult)
  /\ (forall lastModified, lastModifiedText fixedQuietly = Some lastModified ->
                           Js.includes (essay fixedQuietly) lastModified = false)
  /\ renderAnnotatedEssay fixedQuietly = Annotated [Text (essay fixedQuietly)].
Proof.
  assert (Hcs : Forall (fun c => Js.includes (essay fixedQuietly)
                                   (Correction.original c) = false)
                  (corrections sampleResult))
    by (repeat constructor).
  assert (Hlm : forall lastModified,
             lastModifiedText fixedQuietly = Some lastModified ->
             Js.includes (essay fixedQuietly) lastModified = false)
    by discriminate.
  split; [reflexivity|]. split; [exact Hcs|]. split; [exact Hlm|].
  exact (absent_corrections_not_highlighted fixedQuietly sampleResult eq_refl
           Hcs Hlm).
Defined.

(** The sample correction in the review of [analysed]. *)
Lemma first_correction_highlighted_witness :
  result analysed = Some sampleResult
  /\ corrections sampleResult = [sampleCorrection]
  /\ Correction.original sampleCorrection <> ""
  /\ Js.includes (essay analysed) (Correction.original sampleCorrection) = true
  /\ In (CorrectionSpan 0 0 sampleCorrection) (runs (renderAnnotatedEssay analysed)).
Proof.
  assert (Hne : Correction.original sampleCorrection <> "") by discriminate.
  split; [reflexivity|]. split; [reflexivity|]. split; [exact Hne|].
  split; [reflexivity|].
  exact (first_correction_highlighted analysed sampleResult sampleCorrection []
           eq_refl eq_refl Hne eq_refl).
Defined.

(** The replacement example: bad by good in "bad bad". *)
Lemma applyFix_first_occurrence_witness :
  hasDollar "good" = false
  /\ Js.includes (essay badBad) "bad" = true
  /\ exists pre post,
       essay badBad = pre ++ "bad" ++ post
       /\ essay (applyFix "bad" "good" false badBad) = pre ++ "good" ++ post
       /\ forall a b, essay badBad = a ++ "bad" ++ b ->
                      String.length pre <= String.length a.
Proof.
  split; [reflexivity|]. split; [reflexivity|].
  exact (applyFix_first_occurrence badBad "bad" "good" false eq_refl eq_refl).
Defined.

(** The buttons of the sample suggestion and of the sample tip. *)
Lemma enabled_button_has_target_witness :
  suggestionButton "I has a dog" sampleSuggestion
  = Some {| disabled := false; label := ApplyThisFix |}
  /\ tipButton "I has a dog" sampleTip
     = Some {| disabled := false; label := ApplyThisFixToEssay |}
  /\ Js.includes "I has a dog" "has" = true.
Proof.
  destruct (enabled_button_has_target "I has a dog" sampleSuggestion sampleTip
              {| disabled := false; label := ApplyThisFix |}
              {| disabled := false; label := ApplyThisFixToEssay |}
              eq_refl eq_refl eq_refl eq_refl)
    as ((t & r & [= <-] & _ & _ & _ & Hin & _) & _).
  split; [reflexivity|]. split; [reflexivity | exact Hin].
Defined.

(** The button of the sample suggestion once the fix is applied: "has" is
    no longer in the essay, the button is disabled and the click on it
    changes nothing. *)
Lemma apply_absent_target_noop_witness :
  controlPair (SuggestionApply 0) suggestedFixed = Some ("has", "have")
  /\ Js.includes (essay suggestedFixed) "has" = false
  /\ clickControl (SuggestionApply 0) false suggestedFixed = suggestedFixed
  /\ essay (clickControl (SuggestionApply 0) false suggestedFixed)
     = essay suggestedFixed
  /\ history (clickControl (SuggestionApply 0) false suggestedFixed)
     = history suggestedFixed
  /\ historyIndex (clickControl (SuggestionApply 0) false suggestedFixed)
     = historyIndex suggestedFixed.
Proof.
  split; [reflexivity|]. split; [reflexivity|].
  exact (apply_absent_target_noop (SuggestionApply 0) false suggestedFixed
           "has" "have" eq_refl eq_refl).
Defined.

(** The fix of has by have applied to [typed] and undone. *)
Lemma apply_then_undo_witness :
  consistent typed /\ "has" <> "" /\ Js.includes (essay typed) "has" = true
  /\ exists s1,
       handleUndo (applyFix "has" "have" false typed) = Some s1
       /\ essay s1 = essay typed
       /\ historyIndex s1 = historyIndex typed
       /\ isApplied (essay s1) (Some "has") = false
       /\ viewMode s1 = review
       /\ lastModifiedText s1
          = lastModifiedText (applyFix "has" "have" false typed).
Proof.
  assert (Hne : "has" <> "") by discriminate.
  split; [exact typed_consistent|]. split; [exact Hne|]. split; [reflexivity|].
  exact (apply_then_undo typed "has" "have" false typed_consistent Hne eq_refl).
Defined.

(** The key of the fourth criterion. *)
Lemma formatCriterionName_words_witness :
  Forall (fun w => lacks "_" w = true) ["grammatical"; "range"; "accuracy"]
  /\ formatCriterionName (criterionKey grammatical_range_accuracy)
     = Some "Grammatical & Range & Accuracy".
Proof.
  assert (H : Forall (fun w => lacks "_" w = true)
                ["grammatical"; "range"; "accuracy"])
    by (repeat constructor).
  split; [exact H|].
  exact (formatCriterionName_words ["grammatical"; "range"; "accuracy"] H).
Defined.

(** A request with an empty essay, for two different models. *)
Lemma route_guard_witness :
  Js.truthy (Some "") = false
  /\ POST SampleJson (fun t e => e) silentModel parseSample ErrorObject
       (Fields (Some "") (Some "Task 1"))
     = POST SampleJson (fun t e => e) (fun _ => ApiError) (fun _ => None)
         ErrorObject (Fields (Some "") (Some "Task 1"))
  /\ status SampleJson
       (POST SampleJson (fun t e => e) silentModel parseSample ErrorObject
          (Fields (Some "") (Some "Task 1")))
     = 400%Z.
Proof.
  split; [reflexivity|].
  exact (route_guard SampleJson (fun t e => e) parseSample ErrorObject
           silentModel (fun _ => ApiError) (fun _ => None)
           (Fields (Some "") (Some "Task 1")) eq_refl).
Defined.

(** The typed essay sent to a model that fails: the route answers 500 and
    the page shows the generic message. *)
Lemma analysis_through_route_witness :
  wellFormed typed /\ requestSent typed = true
  /\ status SampleJson
       (POST SampleJson (fun t e => e) (fun _ => ApiError) parseSample
          ErrorObject (analyzeRequest typed))
     = 500%Z
  /\ exists s',
       handleAnalyze HttpFailure [] typed = Some s'
       /\ loading s' = false
       /\ result s' = None
       /\ error s' = "Something went wrong. Please try again.".
Proof.
  assert (Hw : wellFormed typed) by (right; exact typed_consistent).
  split; [exact Hw|]. split; [reflexivity|].
  destruct (analysis_through_route SampleJson (fun t e => e) parseSample
              ErrorObject (fun _ => ApiError) [] typed Hw eq_refl)
    as (_ & H500 & _ & Hpage).
  split; [exact H500 | exact Hpage].
Defined.

End Instances.
